(** * Chunking core of the FileMerger application (src/app.py)

    A shallow embedding of the text chunkers, the keyword extractor and the
    metadata annotator of [src/app.py], with the properties the
    specification states about them.

    Python values are modelled as follows.
    - [str] is a list of Unicode code points ([N]); [len] is [length].
    - [int] is [Z]; [//] is [Z.div] (both round towards minus infinity).
    - similarity scores and thresholds are finite doubles; they are only
      ever compared, so they are modelled by the rationals they denote.
    - calls into NLTK and scikit-learn may raise; they are fields of an
      environment record and return a [result].

    The file has three parts: the program, the definitions in which its
    properties are stated, and the proofs. *)

From Stdlib Require Import Strings.String Strings.Ascii.
From Stdlib Require Import List Bool Arith ZArith NArith QArith Lia.
From Stdlib Require Import DecimalString Permutation Sorted.
Import ListNotations.

Local Open Scope list_scope.
Local Open Scope Z_scope.

(** * The program *)

(** ** Python strings *)

Definition char := N.
Definition str := list char.

Definition nl : char := 10%N.
Definition space : char := 32%N.
Definition hash : char := 35%N.

(** A Python literal: the characters of the string, where the two
    characters backslash-n stand for a line feed. *)
Fixpoint unescape (l : list ascii) : str :=
  match l with
  | [] => []
  | c :: l' =>
      match c, l' with
      | "\"%char, "n"%char :: l'' => nl :: unescape l''
      | _, _ => N_of_ascii c :: unescape l'
      end
  end.

Definition py (s : string) : str := unescape (list_ascii_of_string s).

(** [str.isspace] of one character, which is also the class [\s] of [re]
    on [str] patterns. *)
Definition isspace (c : char) : bool :=
  (((9 <=? c) && (c <=? 13)) || ((28 <=? c) && (c <=? 32))
   || (c =? 133) || (c =? 160) || (c =? 5760)
   || ((8192 <=? c) && (c <=? 8202)) || (c =? 8232) || (c =? 8233)
   || (c =? 8239) || (c =? 8287) || (c =? 12288))%N.

(** The class [.] of [re] without DOTALL: anything but a line feed. *)
Definition is_dot (c : char) : bool := negb (c =? nl)%N.

Definition is_hash (c : char) : bool := (c =? hash)%N.

(** The longest prefix whose characters satisfy [f], and what follows it. *)
Fixpoint span (f : char -> bool) (s : str) : str * str :=
  match s with
  | [] => ([], [])
  | c :: s' =>
      if f c then let (a, b) := span f s' in (c :: a, b) else ([], s)
  end.

Fixpoint dropwhile (f : char -> bool) (s : str) : str :=
  match s with
  | [] => []
  | c :: s' => if f c then dropwhile f s' else s
  end.

(** [s.strip()] *)
Definition strip (s : str) : str :=
  rev (dropwhile isspace (rev (dropwhile isspace s))).

(** Truth value of a string or a list: non-empty. *)
Definition truthy {A : Type} (l : list A) : bool :=
  match l with [] => false | _ :: _ => true end.

(** [sep.join(l)] *)
Fixpoint join (sep : str) (l : list str) : str :=
  match l with
  | [] => []
  | [x] => x
  | x :: l' => x ++ sep ++ join sep l'
  end.

(** Puts one more character in front of the piece being built. *)
Definition cons_head (c : char) (pieces : list str) : list str :=
  match pieces with
  | [] => [[c]]
  | p :: ps => (c :: p) :: ps
  end.

(** [text.split('\n\n')]: the pieces between the non-overlapping
    occurrences of two line feeds, found from the left. *)
Fixpoint split_nlnl (s : str) : list str :=
  match s with
  | [] => [[]]
  | c :: s' =>
      match s' with
      | d :: s'' =>
          if ((c =? nl) && (d =? nl))%N then [] :: split_nlnl s''
          else cons_head c (split_nlnl s')
      | [] => cons_head c (split_nlnl s')
      end
  end.

(** [s.split()]: the maximal runs of characters that are not white space. *)
Fixpoint split_ws (s : str) : list str :=
  match s with
  | [] => []
  | c :: s' =>
      if isspace c then split_ws s'
      else match s' with
           | [] => [[c]]
           | d :: _ => if isspace d then [c] :: split_ws s'
                       else cons_head c (split_ws s')
           end
  end.

(** [re.split(r'(?<=[.!?])\s+', text)]: the text is cut at every maximal
    run of white space that directly follows a full stop, an exclamation
    mark or a question mark; the run itself is dropped. [after_end] says
    that the previous character is one of the three marks, [in_sep] that
    the previous character belongs to a run being dropped. *)
Definition is_sentence_end (c : char) : bool :=
  ((c =? 46) || (c =? 33) || (c =? 63))%N.

Fixpoint re_split_sentences (after_end in_sep : bool) (s : str) : list str :=
  match s with
  | [] => [[]]
  | c :: s' =>
      if isspace c then
        if in_sep then re_split_sentences false true s'
        else if after_end then [] :: re_split_sentences false true s'
        else cons_head c (re_split_sentences false false s')
      else cons_head c (re_split_sentences (is_sentence_end c) false s')
  end.

(** [re.match(r'^#{1,6}\s', para)]: one to six hashes, then white space.
    With seven hashes or more the character after any admissible run of
    hashes is a hash, so there is no match. *)
Definition is_heading (para : str) : bool :=
  let (hashes, rest) := span is_hash para in
  ((1 <=? length hashes) && (length hashes <=? 6))%nat
  && match rest with c :: _ => isspace c | [] => false end.

(** [str(n)] for a non-negative integer. *)
Definition str_of_nat (n : nat) : str :=
  map N_of_ascii (list_ascii_of_string (NilEmpty.string_of_uint (Nat.to_uint n))).

(** [enumerate(l)]: the items with their positions [0, 1, ...]. *)
Definition indexed (l : list str) : list (nat * str) :=
  combine (seq 0 (length l)) l.

(** ** Exceptions and the library calls that may raise them *)

Inductive exn : Type :=
| LookupError (msg : str)
| OtherError (msg : str).

Definition exn_msg (e : exn) : str :=
  match e with LookupError m => m | OtherError m => m end.

Inductive result (A : Type) : Type :=
| Ok (a : A)
| Raise (e : exn).

Arguments Ok {A} a.
Arguments Raise {A} e.

Definition bind {A B : Type} (c : result A) (k : A -> result B) : result B :=
  match c with
  | Ok a => k a
  | Raise e => Raise e
  end.

Notation "x <- c ;; k" := (bind c (fun x => k))
  (at level 61, c at next level, right associativity).

(** [try: c  except Exception: h] and the bare [except:]. *)
Definition try_except {A : Type} (c : result A) (h : exn -> result A) : result A :=
  match c with
  | Ok a => Ok a
  | Raise e => h e
  end.

(** [for x in xs: st = step(st, x)] where the body may raise. *)
Fixpoint for_each {X S : Type} (step : S -> X -> result S) (xs : list X) (st : S)
  : result S :=
  match xs with
  | [] => Ok st
  | x :: xs' => st' <- step st x;; for_each step xs' st'
  end.

(** What the module finds around it: whether scikit-learn was imported,
    NLTK's tokenizers and stop words (each lookup of NLTK data may raise
    [LookupError]; the [_retry] fields are the same calls made again after
    [nltk.download]), the TF-IDF cosine similarities of a list of
    paragraphs, and [str.lower]. *)
Record Env : Type := {
  has_sklearn : bool;
  sent_tokenize : str -> result (list str);
  sent_tokenize_retry : str -> result (list str);
  word_tokenize : str -> result (list str);
  stopwords_words : result (list str);
  stopwords_words_retry : result (list str);
  tfidf_similarities : list str -> result (nat -> nat -> Q);
  lower : str -> str
}.

(** ** chunk_by_paragraphs *)

Definition nlnl : str := [nl; nl].

(** [[p for p in text.split('\n\n') if p.strip()]] *)
Definition paragraphs_of (text : str) : list str :=
  filter (fun p => truthy (strip p)) (split_nlnl text).

Record pstate : Type := {
  p_chunks : list str;
  p_current_chunk : list str;
  p_current_count : Z
}.

Definition para_cut (max_paragraphs current_count : Z) (para : str) : bool :=
  (current_count >=? max_paragraphs)
  || ((current_count >? 0) && is_heading para
      && (current_count >=? Z.max 2 (max_paragraphs / 2))).

Definition para_step (max_paragraphs : Z) (st : pstate) (para : str) : pstate :=
  if para_cut max_paragraphs (p_current_count st) para
  then {| p_chunks := p_chunks st ++ [join nlnl (p_current_chunk st)];
          p_current_chunk := [para];
          p_current_count := 1 |}
  else {| p_chunks := p_chunks st;
          p_current_chunk := p_current_chunk st ++ [para];
          p_current_count := p_current_count st + 1 |}.

Definition chunk_by_paragraphs (text : str) (max_paragraphs : Z) : list str :=
  let paragraphs := paragraphs_of text in
  if negb (truthy paragraphs) then [[]]
  else
    let st := fold_left (para_step max_paragraphs) paragraphs
                {| p_chunks := []; p_current_chunk := []; p_current_count := 0 |} in
    if truthy (p_current_chunk st)
    then p_chunks st ++ [join nlnl (p_current_chunk st)]
    else p_chunks st.

(** ** chunk_by_tokens *)

(** The sentences of the text: NLTK's, or after two failed lookups of its
    data the pieces of the regular expression. Only [LookupError] is caught
    around the first call. *)
Definition sentences_of (env : Env) (text : str) : result (list str) :=
  match sent_tokenize env text with
  | Ok sentences => Ok sentences
  | Raise (LookupError _) =>
      try_except (sent_tokenize_retry env text)
                 (fun _ => Ok (re_split_sentences false false text))
  | Raise e => Raise e
  end.

Definition sentence_token_count (env : Env) (sentence : str) : Z :=
  match word_tokenize env sentence with
  | Ok words => Z.of_nat (length words)
  | Raise _ => Z.of_nat (length (split_ws sentence))
  end.

Record tstate : Type := {
  t_chunks : list str;
  t_current_chunk : list str;
  t_current_token_count : Z
}.

Definition token_step (env : Env) (max_tokens : Z) (st : tstate) (sentence : str)
  : tstate :=
  let sentence_token_count := sentence_token_count env sentence in
  if (t_current_token_count st + sentence_token_count >? max_tokens)
     && truthy (t_current_chunk st)
  then {| t_chunks := t_chunks st ++ [join [space] (t_current_chunk st)];
          t_current_chunk := [sentence];
          t_current_token_count := sentence_token_count |}
  else {| t_chunks := t_chunks st;
          t_current_chunk := t_current_chunk st ++ [sentence];
          t_current_token_count := t_current_token_count st + sentence_token_count |}.

(** The packing loop of [chunk_by_tokens], on the sentences. *)
Definition pack_sentences (env : Env) (max_tokens : Z) (sentences : list str)
  : list str :=
  let st := fold_left (token_step env max_tokens) sentences
              {| t_chunks := []; t_current_chunk := []; t_current_token_count := 0 |} in
  if truthy (t_current_chunk st)
  then t_chunks st ++ [join [space] (t_current_chunk st)]
  else t_chunks st.

Definition chunk_by_tokens (env : Env) (text : str) (max_tokens : Z)
  : result (list str) :=
  sentences <- sentences_of env text;;
  Ok (pack_sentences env max_tokens sentences).

(** ** chunk_by_structure *)

(** The pattern [(^|\n)(#+\s+.+)(\n|$)] under [re.MULTILINE].

    [heading_tail j u] matches [\s+.+] on [u] the way the backtracking
    matcher does: [\s+] first takes [j] characters, the longest run of
    white space, then gives them back one at a time until [.+] finds at
    least one character that is not a line feed; [.+] then runs to the end
    of the line. It returns the two matched parts and what follows. *)
Fixpoint heading_tail (j : nat) (u : str) : option (str * str * str) :=
  match j with
  | O => None
  | S j' =>
      match span is_dot (skipn j u) with
      | ([], _) => heading_tail j' u
      | (dots, rest) => Some (firstn j u, dots, rest)
      end
  end.

(** [(#+\s+.+)(\n|$)] at the start of [t]: the second and third group and
    the number of characters matched. A shorter run of hashes is followed by
    a hash, which [\s+] refuses, so only the longest run is tried. After
    [.+] the text is at a line feed, which the third group takes, or at its
    end, where [$] matches. *)
Definition heading_body (t : str) : option (str * str) :=
  let (hashes, u) := span is_hash t in
  if negb (truthy hashes) then None
  else
    match heading_tail (length (fst (span isspace u))) u with
    | None => None
    | Some (ws, dots, rest) =>
        Some (hashes ++ ws ++ dots,
              match rest with c :: _ => if (c =? nl)%N then [nl] else [] | [] => [] end)
    end.

(** The pattern at the start of [s]; [line_start] says that [s] begins
    the text or follows a line feed, which is where [^] matches. [^] is
    tried first, and the line feed of the first group only when the text
    is at one. *)
Definition heading_match (line_start : bool) (s : str) : option (str * str * str) :=
  match s with
  | c :: s1 =>
      if (c =? nl)%N then
        match heading_body s1 with
        | Some (g2, g3) => Some ([nl], g2, g3)
        | None => None
        end
      else if line_start then
        match heading_body s with
        | Some (g2, g3) => Some ([], g2, g3)
        | None => None
        end
      else None
  | [] => None
  end.

(** [re.split(heading_pattern, text, flags=re.MULTILINE)]: the text before
    the first match, then for every match its three groups and the text up
    to the next match. [skip] counts the characters of the current match
    that are still to be passed over. *)
Fixpoint re_split_heading (line_start : bool) (skip : nat) (s : str) : list str :=
  match s with
  | [] => [[]]
  | c :: s' =>
      match skip with
      | S k => re_split_heading (c =? nl)%N k s'
      | O =>
          match heading_match line_start s with
          | Some (g1, g2, g3) =>
              [] :: g1 :: g2 :: g3
                 :: re_split_heading (c =? nl)%N
                      (length g1 + length g2 + length g3 - 1) s'
          | None => cons_head c (re_split_heading (c =? nl)%N 0 s')
          end
      end
  end.

(** [range(start, stop, step)] for [start <= stop] and a positive step. *)
Definition py_range (start stop step : nat) : list nat :=
  map (fun k => start + k * step)%nat (seq 0 ((stop - start + step - 1) / step)).

(** The loop that pairs [parts[i+1]] with [parts[i+2]] for [i = 1, 5, 9, ...] *)
Definition sections_of (parts : list str) : list str :=
  flat_map
    (fun i => if (i + 2 <? length parts)%nat
              then [nth (i + 1) parts [] ++ nth (i + 2) parts []]
              else [])
    (py_range 1 (length parts) 4).

(** One section of the last loop; [word_tokenize] is called bare. *)
Definition structure_step (env : Env) (max_tokens : Z) (chunks : list str)
  (section : str) : result (list str) :=
  words <- word_tokenize env section;;
  let section_tokens := Z.of_nat (length words) in
  if section_tokens <=? max_tokens then Ok (chunks ++ [section])
  else
    sub_chunks <- chunk_by_tokens env section max_tokens;;
    Ok (chunks ++ sub_chunks).

Definition chunk_by_structure (env : Env) (text : str) (max_tokens : Z)
  : result (list str) :=
  let parts := re_split_heading true 0 text in
  let sections := sections_of parts in
  if negb (truthy sections)
  then Ok (chunk_by_paragraphs text (Z.max 3 (max_tokens / 100)))
  else for_each (structure_step env max_tokens) sections [].

(** ** chunk_by_semantic_similarity *)

Record sstate : Type := {
  s_chunks : list str;
  s_current_chunk : list str;
  s_current_token_count : Z;
  s_current_idx : nat
}.

(** [a > b] on scores. *)
Definition score_gt (a b : Q) : bool := negb (Qle_bool a b).

Definition similarity_step (env : Env) (max_tokens : Z) (similarity_threshold : Q)
  (paragraphs : list str) (similarities : nat -> nat -> Q)
  (st : sstate) (i : nat) : result sstate :=
  words <- word_tokenize env (nth i paragraphs []);;
  let paragraph_token_count := Z.of_nat (length words) in
  let similarity_to_current := similarities (s_current_idx st) i in
  if score_gt similarity_to_current similarity_threshold
     && (s_current_token_count st + paragraph_token_count <=? max_tokens)
  then Ok {| s_chunks := s_chunks st;
             s_current_chunk := s_current_chunk st ++ [nth i paragraphs []];
             s_current_token_count := s_current_token_count st + paragraph_token_count;
             s_current_idx := s_current_idx st |}
  else Ok {| s_chunks := s_chunks st ++ [join nlnl (s_current_chunk st)];
             s_current_chunk := [nth i paragraphs []];
             s_current_token_count := paragraph_token_count;
             s_current_idx := i |}.

(** The body of the outer [try]. *)
Definition similarity_body (env : Env) (text : str) (max_tokens : Z)
  (similarity_threshold : Q) : result (list str) :=
  let paragraphs := paragraphs_of text in
  if negb (truthy paragraphs) then Ok [[]]
  else if (length paragraphs <=? 3)%nat then chunk_by_tokens env text max_tokens
  else
    match tfidf_similarities env paragraphs with
    | Raise _ => chunk_by_tokens env text max_tokens
    | Ok similarities =>
        words <- word_tokenize env (nth 0 paragraphs []);;
        st <- for_each
                (similarity_step env max_tokens similarity_threshold
                   paragraphs similarities)
                (py_range 1 (length paragraphs) 1)
                {| s_chunks := [];
                   s_current_chunk := [nth 0 paragraphs []];
                   s_current_token_count := Z.of_nat (length words);
                   s_current_idx := 0 |};;
        Ok (if truthy (s_current_chunk st)
            then s_chunks st ++ [join nlnl (s_current_chunk st)]
            else s_chunks st)
    end.

Definition chunk_by_semantic_similarity (env : Env) (text : str) (max_tokens : Z)
  (similarity_threshold : Q) : result (list str) :=
  if negb (has_sklearn env) then chunk_by_tokens env text max_tokens
  else try_except (similarity_body env text max_tokens similarity_threshold)
                  (fun _ => chunk_by_tokens env text max_tokens).

(** ** extract_keywords *)

Fixpoint str_eqb (a b : str) : bool :=
  match a, b with
  | [], [] => true
  | c :: a', d :: b' => (c =? d)%N && str_eqb a' b'
  | _, _ => false
  end.

(** [w in stops] *)
Definition mem (w : str) (stops : list str) : bool := existsb (str_eqb w) stops.

(** [string.punctuation] *)
Definition punctuation : str :=
  py "!" ++ [34%N] ++ py "#$%&'()*+,-./:;<=>?@[" ++ [92%N] ++ py "]^_`{|}~".

(** The set literal of the second [stops.update]: six bullet and quote
    glyphs, the double quote twice, the two characters comma and space
    (the literal between the two triple quotes), and two dashes. *)
Definition glyphs : list str :=
  [[8226%N]; [9632%N]; [9658%N]; [9679%N]; [9670%N]; [187%N]; [34%N]; [34%N];
   [44%N; 32%N]; [8211%N]; [8212%N]].

(** [collections.Counter]: a dictionary, which keeps its keys in the order
    of their first insertion. *)
Fixpoint counter_add (w : str) (c : list (str * nat)) : list (str * nat) :=
  match c with
  | [] => [(w, 1%nat)]
  | (k, n) :: c' =>
      if str_eqb k w then (k, S n) :: c' else (k, n) :: counter_add w c'
  end.

Definition Counter (words : list str) : list (str * nat) :=
  fold_left (fun c w => counter_add w c) words [].

(** [sorted(items, key=itemgetter(1), reverse=True)]: a stable sort, so
    items with equal counts keep their order. *)
Fixpoint insert_desc (x : str * nat) (l : list (str * nat)) : list (str * nat) :=
  match l with
  | [] => [x]
  | y :: l' => if (snd x <? snd y)%nat then y :: insert_desc x l' else x :: l
  end.

Definition sorted_desc (items : list (str * nat)) : list (str * nat) :=
  fold_right insert_desc [] items.

(** [Counter.most_common(n)], which is [heapq.nlargest(n, items, key=count)]:
    the first [n] items of the stable descending sort, none for [n <= 0]. *)
Definition most_common (n : Z) (c : list (str * nat)) : list (str * nat) :=
  firstn (Z.to_nat n) (sorted_desc c).

(** The stop words: NLTK's list, looked up again after a download when
    the first lookup raises [LookupError]. *)
Definition load_stopwords (env : Env) : result (list str) :=
  match stopwords_words env with
  | Ok l => Ok l
  | Raise (LookupError _) => stopwords_words_retry env
  | Raise e => Raise e
  end.

Definition all_stops (stopwords : list str) : list str :=
  stopwords ++ map (fun c => [c]) punctuation ++ glyphs.

Definition keep_word (stops : list str) (word : str) : bool :=
  negb (mem word stops) && (2 <? length word)%nat.

Definition extract_keywords (env : Env) (text : str) (max_keywords : Z) : list str :=
  match
    (stopwords <- load_stopwords env;;
     let stops := all_stops stopwords in
     words <- word_tokenize env (lower env text);;
     let words := filter (keep_word stops) words in
     let word_freq := Counter words in
     let keywords := most_common max_keywords word_freq in
     Ok (map fst keywords))
  with
  | Ok keywords => keywords
  | Raise e => [py "Error extracting keywords: " ++ exn_msg e]
  end.

(** ** add_metadata *)

(** What the function reads from [st.session_state]; a key may be absent. *)
Record Session : Type := {
  session_extract_keywords : option bool;
  session_max_keywords : option Z
}.

Definition keywords_section (env : Env) (sess : Session) (chunk : str) : str :=
  match session_extract_keywords sess with
  | Some true =>
      let max_kw := match session_max_keywords sess with
                    | Some k => k
                    | None => 10
                    end in
      let keywords := extract_keywords env chunk max_kw in
      py "KEYWORDS: " ++ join (py ", ") keywords ++ [nl]
  | _ => []
  end.

(** One turn of the loop over [enumerate(chunks)]; [annotated] is the list
    the source calls [result]. *)
Definition add_metadata_step (env : Env) (sess : Session) (filename chunking_method : str)
  (total : nat) (annotated : list str) (ic : nat * str) : result (list str) :=
  let (i, chunk) := ic in
  let keywords_section := keywords_section env sess chunk in
  words <- word_tokenize env chunk;;
  let token_count := length words in
  let metadata :=
    py "---\nCHUNK: " ++ str_of_nat (i + 1) ++ py "/" ++ str_of_nat total
    ++ py "\nSOURCE: " ++ filename
    ++ py "\nCHUNKING_METHOD: " ++ chunking_method
    ++ py "\nTOKENS: ~" ++ str_of_nat token_count ++ [nl]
    ++ keywords_section ++ py "---\n\n" in
  Ok (annotated ++ [metadata ++ chunk]).

Definition add_metadata (env : Env) (sess : Session) (chunks : list str)
  (filename chunking_method : str) : result (list str) :=
  for_each (add_metadata_step env sess filename chunking_method (length chunks))
    (indexed chunks) [].

(** ** The extractors

    Each extractor reads the uploaded file through a library; the file is
    modelled by what each of those reads returns. *)

(** What [Presentation(file)] gives: whether [prs.slide_layouts] is not
    empty, and for every slide its shapes, each with its [text] attribute
    when it has one. *)
Record Presentation : Type := {
  slide_layouts : bool;
  slides : list (list (option str))
}.

(** The elements [soup.find_all] returns, by tag name, with their text. *)
Inductive html_tag : Type :=
| Heading (level : nat)
| Paragraph
| ListItem.

(** What [BeautifulSoup(html_content, 'html.parser')] gives: the text of
    the title element when there is one, and the headings, paragraphs and
    list items in document order. *)
Record Soup : Type := {
  soup_title : option str;
  soup_elements : list (html_tag * str)
}.

(** An uploaded file, as the libraries read it. *)
Record File : Type := {
  pdf_pages : result (list (option str));
  docx_paragraphs : result (list str);
  txt_decoded : result str;
  csv_markdown : result str;
  excel_markdown : result str;
  pptx_presentation : result Presentation;
  html_soup : result Soup
}.

(** [page.extract_text() or ""] followed by a blank line, for every page. *)
Definition extract_text_from_pdf (file : File) : result str :=
  pages <- pdf_pages file;;
  Ok (fold_left
        (fun text page =>
           text ++ (match page with Some t => t | None => [] end) ++ nlnl)
        pages []).

Definition extract_text_from_docx (file : File) : result str :=
  paragraphs <- docx_paragraphs file;;
  Ok (fold_left (fun text para => text ++ para ++ [nl]) paragraphs []).

Definition extract_text_from_txt (file : File) : result str := txt_decoded file.

Definition extract_text_from_table (env : Env) (file : File) (file_extension : str)
  : result str :=
  if str_eqb (lower env file_extension) (py ".csv") then csv_markdown file
  else excel_markdown file.

(** The text of one slide: its heading, the texts of the shapes that have
    one, each followed by a blank line, and a line feed. *)
Definition slide_text (i : nat) (shapes : list (option str)) : str :=
  py "## Slide " ++ str_of_nat (i + 1) ++ nlnl
  ++ fold_left
       (fun text shape =>
          match shape with
          | Some t => if truthy t then text ++ t ++ nlnl else text
          | None => text
          end)
       shapes []
  ++ [nl].

Definition extract_text_from_pptx (has_pptx : bool) (file : File) : str :=
  if negb has_pptx
  then py "Python-pptx package is required for PowerPoint processing. Please install it with: pip install python-pptx"
  else
    match
      (prs <- pptx_presentation file;;
       let text := if slide_layouts prs then py "# PowerPoint Presentation\n\n" else [] in
       Ok (fold_left (fun text islide => text ++ slide_text (fst islide) (snd islide))
             (combine (seq 0 (length (slides prs))) (slides prs)) text))
    with
    | Ok text => text
    | Raise e => py "Error processing PowerPoint file: " ++ exn_msg e
    end.

(** The text one element adds. *)
Definition html_element_text (elem : html_tag * str) : str :=
  match fst elem with
  | Heading level => repeat hash level ++ [space] ++ strip (snd elem) ++ nlnl
  | Paragraph => strip (snd elem) ++ nlnl
  | ListItem => py "- " ++ strip (snd elem) ++ [nl]
  end.

Definition extract_text_from_html (has_bs4 : bool) (file : File) : str :=
  if negb has_bs4
  then py "BeautifulSoup4 is required for HTML processing. Please install it with: pip install beautifulsoup4"
  else
    match
      (soup <- html_soup file;;
       let text := match soup_title soup with
                   | Some title => py "# " ++ title ++ nlnl
                   | None => []
                   end in
       Ok (fold_left (fun text elem => text ++ html_element_text elem)
             (soup_elements soup) text))
    with
    | Ok text => text
    | Raise e => py "Error processing HTML file: " ++ exn_msg e
    end.

(** ** process_file *)

Definition process_file (env : Env) (has_pptx has_bs4 : bool) (file : File)
  (file_extension : str) : result str :=
  try_except
    (let ext := lower env file_extension in
     if mem ext [py ".pdf"] then extract_text_from_pdf file
     else if mem ext [py ".docx"; py ".doc"] then extract_text_from_docx file
     else if mem ext [py ".txt"; py ".md"; py ".text"; py ".markdown"]
     then extract_text_from_txt file
     else if mem ext [py ".csv"; py ".xlsx"; py ".xls"]
     then extract_text_from_table env file ext
     else if mem ext [py ".pptx"; py ".ppt"]
     then Ok (extract_text_from_pptx has_pptx file)
     else if mem ext [py ".html"; py ".htm"]
     then Ok (extract_text_from_html has_bs4 file)
     else if mem ext [py ".json"; py ".xml"; py ".yaml"; py ".yml"]
     then extract_text_from_txt file
     else Ok (py "Unsupported file format: " ++ file_extension
              ++ py ". File will be treated as plain text."))
    (fun e => Ok (py "Error processing file: " ++ exn_msg e)).

(** ** The processing loop *)

(** The four entries of the chunking-method radio; the last branch of the
    loop takes every entry that is none of the first three. *)
Inductive chunking_choice : Type :=
| SmartParagraph
| Semantic
| StructureBased
| TokenBased.

(** The options the loop reads from [st.session_state]. The similarity
    threshold may be absent, in which case it is 0.3. *)
Record Options : Type := {
  chunking_enabled : bool;
  chunking_method : chunking_choice;
  paragraphs_per_chunk : Z;
  tokens_per_chunk : Z;
  similarity_threshold : option Q;
  add_metadata_enabled : bool
}.

(** [str(n)] for an integer. *)
Definition str_of_Z (n : Z) : str :=
  if n <? 0 then py "-" ++ str_of_nat (Z.to_nat (- n)) else str_of_nat (Z.to_nat n).

(** The chunks of one content and the description of the method;
    [float_str] is [str] on floats. *)
Definition chunks_of (env : Env) (opts : Options) (float_str : Q -> str)
  (content : str) : result (list str * str) :=
  match chunking_method opts with
  | SmartParagraph =>
      Ok (chunk_by_paragraphs content (paragraphs_per_chunk opts),
          py "Smart Paragraph (" ++ str_of_Z (paragraphs_per_chunk opts)
          ++ py " max paragraphs per chunk)")
  | Semantic =>
      let similarity := match similarity_threshold opts with
                        | Some s => s
                        | None => (3 # 10)%Q
                        end in
      chunks <- chunk_by_semantic_similarity env content (tokens_per_chunk opts)
                  similarity;;
      Ok (chunks,
          py "Semantic (~" ++ str_of_Z (tokens_per_chunk opts)
          ++ py " tokens per chunk, similarity: " ++ float_str similarity ++ py ")")
  | StructureBased =>
      chunks <- chunk_by_structure env content (tokens_per_chunk opts);;
      Ok (chunks,
          py "Structure-based (~" ++ str_of_Z (tokens_per_chunk opts)
          ++ py " tokens per chunk)")
  | TokenBased =>
      chunks <- chunk_by_tokens env content (tokens_per_chunk opts);;
      Ok (chunks,
          py "Token-based (~" ++ str_of_Z (tokens_per_chunk opts)
          ++ py " tokens per chunk)")
  end.

(** The body of the loop after [process_file]: the processed content of
    one file, from its name and its extracted content. *)
Definition processed_content (env : Env) (sess : Session) (opts : Options)
  (float_str : Q -> str) (name content : str) : result str :=
  if chunking_enabled opts then
    cm <- chunks_of env opts float_str content;;
    chunks <- (if add_metadata_enabled opts
               then add_metadata env sess (fst cm) name (snd cm)
               else Ok (fst cm));;
    Ok (join nlnl chunks)
  else if add_metadata_enabled opts
  then Ok (py "---\nSOURCE: " ++ name ++ py "\n---\n\n" ++ content)
  else Ok content.

(** The merged content of the processed files. *)
Definition merged_content (opts : Options) (processed_contents : list str) : str :=
  if add_metadata_enabled opts
  then join (py "\n\n---\n\n") processed_contents
  else join nlnl processed_contents.

(** An uploaded file: its name, the extension [os.path.splitext] finds in
    the name, and what the readers find in the file. *)
Record Upload : Type := {
  upload_name : str;
  upload_extension : str;
  upload_file : File
}.

(** The loop of the button: the processed contents of the uploaded files,
    in order, and their merged content. No statement of the loop is inside
    a handler. *)
Definition process_files (env : Env) (sess : Session) (opts : Options)
  (float_str : Q -> str) (has_pptx has_bs4 : bool) (uploaded_files : list Upload)
  : result (list str * str) :=
  processed_contents <-
    for_each
      (fun processed_contents file =>
         content <- process_file env has_pptx has_bs4 (upload_file file)
                      (upload_extension file);;
         processed <- processed_content env sess opts float_str
                        (upload_name file) content;;
         Ok (processed_contents ++ [processed]))
      uploaded_files [];;
  Ok (processed_contents, merged_content opts processed_contents).

(** ** Concrete environments *)

Definition ascii_lower (c : char) : char :=
  if ((65 <=? c) && (c <=? 90))%N then (c + 32)%N else c.

(** NLTK's data is missing and cannot be downloaded: every lookup raises
    [LookupError], so the chunkers run on their own fallbacks.
    scikit-learn is present and finds no two paragraphs similar. *)
Definition env_no_nltk : Env := {|
  has_sklearn := true;
  sent_tokenize := fun _ => Raise (LookupError (py "punkt"));
  sent_tokenize_retry := fun _ => Raise (LookupError (py "punkt"));
  word_tokenize := fun _ => Raise (LookupError (py "punkt"));
  stopwords_words := Raise (LookupError (py "stopwords"));
  stopwords_words_retry := Raise (LookupError (py "stopwords"));
  tfidf_similarities := fun _ => Ok (fun _ _ => 0%Q);
  lower := map ascii_lower
|}.

(** Every library call returns: sentences end at a mark followed by
    white space and the empty text has no sentence, words are separated
    by white space, paragraph [i] and [j] have similarity [1/(1+|i-j|)],
    and there are three stop words. scikit-learn is present. *)
Definition env_simple : Env := {|
  has_sklearn := true;
  sent_tokenize := fun t => Ok (filter truthy (re_split_sentences false false t));
  sent_tokenize_retry := fun t => Ok (filter truthy (re_split_sentences false false t));
  word_tokenize := fun t => Ok (split_ws t);
  stopwords_words := Ok [py "the"; py "and"; py "with"];
  stopwords_words_retry := Ok [py "the"; py "and"; py "with"];
  tfidf_similarities :=
    fun _ => Ok (fun i j => (1 # Pos.of_succ_nat (Nat.max i j - Nat.min i j))%Q);
  lower := map ascii_lower
|}.

(** An environment whose sentence splitter fails with an error that
    [chunk_by_tokens] does not catch. *)
Definition env_broken : Env := {|
  has_sklearn := true;
  sent_tokenize := fun _ => Raise (OtherError (py "broken"));
  sent_tokenize_retry := fun _ => Raise (OtherError (py "broken"));
  word_tokenize := fun _ => Raise (OtherError (py "broken"));
  stopwords_words := Raise (OtherError (py "broken"));
  stopwords_words_retry := Raise (OtherError (py "broken"));
  tfidf_similarities := fun _ => Raise (OtherError (py "broken"));
  lower := map ascii_lower
|}.

(** * The properties *)

(** ** The shape the three packing loops share

    Each loop goes once through its items and keeps a state for the
    chunk being built: the first item of a chunk sets the state
    ([start]), every further item updates it ([extend]), and an item for
    which [cut] holds closes the chunk and opens the next one. *)

Section Greedy.

Variables X S : Type.
Variable start : X -> S.
Variable extend : S -> X -> S.
Variable cut : S -> X -> bool.

Fixpoint greedy (cur : list X) (st : S) (xs : list X) : list (list X) :=
  match xs with
  | [] => [cur]
  | x :: xs' =>
      if cut st x then cur :: greedy [x] (start x) xs'
      else greedy (cur ++ [x]) (extend st x) xs'
  end.

Definition greedy_groups (xs : list X) : list (list X) :=
  match xs with
  | [] => []
  | x :: xs' => greedy [x] (start x) xs'
  end.

(** The state of a chunk that began with [x0] and went on with [l]. *)
Definition state_of (x0 : X) (l : list X) : S := fold_left extend l (start x0).

(** What a grouping of [xs] must satisfy to be the greedy one: the groups
    are the items in order, none is empty, no item inside a group asked
    for a cut, and the first item of every later group did. *)
Definition greedy_grouping (xs : list X) (gs : list (list X)) : Prop :=
  concat gs = xs
  /\ Forall (fun g => g <> []) gs
  /\ (forall x0 pre x post,
         In (x0 :: pre ++ x :: post) gs -> cut (state_of x0 pre) x = false)
  /\ (forall l1 x0 g x g' l2,
         gs = l1 ++ (x0 :: g) :: (x :: g') :: l2 -> cut (state_of x0 g) x = true).

End Greedy.

Arguments greedy {X S} start extend cut cur st xs.
Arguments greedy_groups {X S} start extend cut xs.
Arguments state_of {X S} start extend x0 l.
Arguments greedy_grouping {X S} start extend cut xs gs.

(** ** The groups and the rule of the paragraph chunker *)

Definition para_start (_ : str) : Z := 1.
Definition para_extend (n : Z) (_ : str) : Z := n + 1.

(** The paragraphs of each chunk, before they are joined. *)
Definition paragraph_groups (max_paragraphs : Z) (paragraphs : list str)
  : list (list str) :=
  greedy_groups para_start para_extend (para_cut max_paragraphs) paragraphs.

(** The size from which a heading may close a chunk. *)
Definition minimum_paragraphs (max_paragraphs : Z) : Z := Z.max 2 (max_paragraphs / 2).

(** The rule of the paragraph chunker, stated on the groups of paragraphs
    that make the chunks: the groups are the paragraphs in order; no group
    is empty or longer than [max_paragraphs]; where a group ends and
    another begins, the group that ends is full, or it has reached the
    minimum and the paragraph that begins the next one is a heading;
    and at no paragraph inside a group did either condition hold. *)
Definition paragraph_rule (max_paragraphs : Z) (paragraphs : list str)
  (groups : list (list str)) : Prop :=
  concat groups = paragraphs
  /\ (forall g, In g groups -> g <> [] /\ Z.of_nat (length g) <= max_paragraphs)
  /\ (forall l1 g para g' l2,
        groups = l1 ++ g :: (para :: g') :: l2 ->
        Z.of_nat (length g) = max_paragraphs
        \/ (minimum_paragraphs max_paragraphs <= Z.of_nat (length g)
            /\ is_heading para = true))
  /\ (forall pre para post,
        In (pre ++ para :: post) groups -> pre <> [] ->
        Z.of_nat (length pre) < max_paragraphs
        /\ ~ (minimum_paragraphs max_paragraphs <= Z.of_nat (length pre)
              /\ is_heading para = true)).

(** ** The groups and the rule of the token-budget chunker *)

Definition token_start (env : Env) (s : str) : Z := sentence_token_count env s.
Definition token_extend (env : Env) (n : Z) (s : str) : Z :=
  n + sentence_token_count env s.
Definition token_cut (env : Env) (max_tokens n : Z) (s : str) : bool :=
  n + sentence_token_count env s >? max_tokens.

(** The sentences of each chunk, before they are joined. *)
Definition sentence_groups (env : Env) (max_tokens : Z) (sentences : list str)
  : list (list str) :=
  greedy_groups (token_start env) (token_extend env) (token_cut env max_tokens)
    sentences.

(** The running token count of a chunk: the sum of the counts of its
    sentences. *)
Definition total_tokens (env : Env) (g : list str) : Z :=
  fold_right (fun s acc => sentence_token_count env s + acc) 0 g.

(** The budget rule of the token chunker, stated on the groups of
    sentences that make the chunks: the groups are the sentences in
    order, so none is dropped or cut; a group stays within the budget
    unless it is exactly one sentence that is over the budget by itself;
    a sentence over the budget is alone in its group; and a group ends
    only where the next sentence would have taken it over the budget. *)
Definition token_rule (env : Env) (max_tokens : Z) (sentences : list str)
  (groups : list (list str)) : Prop :=
  concat groups = sentences
  /\ (forall g, In g groups ->
        g <> []
        /\ (total_tokens env g <= max_tokens
            \/ exists s, g = [s] /\ max_tokens < sentence_token_count env s))
  /\ (forall g s, In g groups -> In s g ->
        max_tokens < sentence_token_count env s -> g = [s])
  /\ (forall l1 g s g' l2,
        groups = l1 ++ g :: (s :: g') :: l2 ->
        max_tokens < total_tokens env g + sentence_token_count env s).

(** ** The groups and the rule of the similarity chunker *)

Definition returns {A : Type} (r : result A) : bool :=
  match r with Ok _ => true | Raise _ => false end.

(** [len(word_tokenize(p))], where the call returns. *)
Definition word_count (env : Env) (p : str) : Z :=
  match word_tokenize env p with
  | Ok words => Z.of_nat (length words)
  | Raise _ => 0
  end.

Definition total_words (env : Env) (g : list str) : Z :=
  fold_right (fun p acc => word_count env p + acc) 0 g.

(** The state of a chunk is the position of its first paragraph, the
    anchor, and its running token count. *)
Definition sim_start (env : Env) (x : nat * str) : nat * Z :=
  (fst x, word_count env (snd x)).
Definition sim_extend (env : Env) (st : nat * Z) (x : nat * str) : nat * Z :=
  (fst st, snd st + word_count env (snd x)).
Definition sim_merge (env : Env) (max_tokens : Z) (similarity_threshold : Q)
  (similarities : nat -> nat -> Q) (st : nat * Z) (x : nat * str) : bool :=
  score_gt (similarities (fst st) (fst x)) similarity_threshold
  && (snd st + word_count env (snd x) <=? max_tokens).
Definition sim_cut (env : Env) (max_tokens : Z) (similarity_threshold : Q)
  (similarities : nat -> nat -> Q) (st : nat * Z) (x : nat * str) : bool :=
  negb (sim_merge env max_tokens similarity_threshold similarities st x).

Definition similarity_groups (env : Env) (max_tokens : Z) (similarity_threshold : Q)
  (similarities : nat -> nat -> Q) (paragraphs : list str) : list (list (nat * str)) :=
  greedy_groups (sim_start env) (sim_extend env)
    (sim_cut env max_tokens similarity_threshold similarities) (indexed paragraphs).

Definition render (g : list (nat * str)) : str := join nlnl (map snd g).

(** The rule of the similarity pass, stated on the groups of indexed
    paragraphs that make the chunks. The groups are the paragraphs in
    order, each in exactly one group, and none is empty: one pass from
    left to right. The first paragraph of a group is its anchor [a]. A
    later paragraph [i] of the group was appended: its similarity to the
    anchor is strictly above the threshold, and the token count of the
    group up to and including it, counted from the anchor, is within the
    budget. The paragraph that begins the next group was not appended:
    one of the two conditions failed for it. *)
Definition similarity_rule (env : Env) (max_tokens : Z) (similarity_threshold : Q)
  (similarities : nat -> nat -> Q) (paragraphs : list str)
  (groups : list (list (nat * str))) : Prop :=
  concat groups = indexed paragraphs
  /\ (forall g, In g groups -> g <> [])
  /\ (forall a pa pre i p post,
        In ((a, pa) :: pre ++ (i, p) :: post) groups ->
        (similarity_threshold < similarities a i)%Q
        /\ word_count env pa + total_words env (map snd pre) + word_count env p
           <= max_tokens)
  /\ (forall l1 a pa g i p g' l2,
        groups = l1 ++ ((a, pa) :: g) :: ((i, p) :: g') :: l2 ->
        ~ ((similarity_threshold < similarities a i)%Q
           /\ word_count env pa + total_words env (map snd g) + word_count env p
              <= max_tokens)).

(** ** The annotated chunks *)

(** [len(word_tokenize(chunk))], where the call returns. *)
Definition token_total (env : Env) (chunk : str) : nat :=
  match word_tokenize env chunk with
  | Ok words => length words
  | Raise _ => 0%nat
  end.

(** The header of chunk [i] (counted from 0) of [total], with its body. *)
Definition annotated_chunk (env : Env) (sess : Session) (filename chunking_method : str)
  (total : nat) (ic : nat * str) : str :=
  py "---\nCHUNK: " ++ str_of_nat (fst ic + 1) ++ py "/" ++ str_of_nat total
  ++ py "\nSOURCE: " ++ filename
  ++ py "\nCHUNKING_METHOD: " ++ chunking_method
  ++ py "\nTOKENS: ~" ++ str_of_nat (token_total env (snd ic)) ++ [nl]
  ++ keywords_section env sess (snd ic) ++ py "---\n\n" ++ snd ic.

(** ** The content of a text *)

(** The content of a text that is not white space. *)
Definition non_blank (s : str) : str := filter (fun c => negb (isspace c)) s.

(** ** The ranking of keywords *)

(** How often a word occurs among the tokens, and where it occurs first. *)
Definition occurrences (w : str) (ws : list str) : nat :=
  length (filter (str_eqb w) ws).

Fixpoint first_index (w : str) (ws : list str) : nat :=
  match ws with
  | [] => 0%nat
  | v :: ws' => if str_eqb w v then 0%nat else S (first_index w ws')
  end.

(** [w1] ranks before [w2]: it is more frequent, or as frequent and met
    first. *)
Definition ranks_before (ws : list str) (w1 w2 : str) : Prop :=
  (occurrences w2 ws < occurrences w1 ws)%nat
  \/ (occurrences w1 ws = occurrences w2 ws
      /\ (first_index w1 ws < first_index w2 ws)%nat).

(** The ranking of the distinct words of [ws]. *)
Definition keyword_ranking (ws : list str) (ranking : list str) : Prop :=
  NoDup ranking
  /\ (forall w, In w ranking <-> In w ws)
  /\ StronglySorted (ranks_before ws) ranking.

(** The keys of a counter and the count it holds for a word. *)
Definition keys (c : list (str * nat)) : list str := map fst c.

Fixpoint count_of (w : str) (c : list (str * nat)) : nat :=
  match c with
  | [] => 0%nat
  | (k, n) :: c' => if str_eqb k w then n else count_of w c'
  end.

(** [w1] is met before [w2] among the tokens [ws]. *)
Definition met_before (ws : list str) (w1 w2 : str) : Prop :=
  (first_index w1 ws < first_index w2 ws)%nat.

(** The order of the stable descending sort: a higher count first, and
    among equal counts the order [T] the items came in. *)
Definition sorted_order (T : str * nat -> str * nat -> Prop) (a b : str * nat) : Prop :=
  (snd b < snd a)%nat \/ (snd a = snd b /\ T a b).

(** ** Texts made of blocks *)

(** [s.endswith('\n')] *)
Fixpoint ends_with_nl (s : str) : bool :=
  match s with
  | [] => false
  | c :: s' =>
      match s' with
      | [] => (c =? nl)%N
      | _ :: _ => ends_with_nl s'
      end
  end.

(** ['\n\n' in s] *)
Fixpoint has_nlnl (s : str) : bool :=
  match s with
  | [] => false
  | c :: s' =>
      match s' with
      | [] => false
      | d :: _ => ((c =? nl) && (d =? nl))%N || has_nlnl s'
      end
  end.

(** Pieces as [split] leaves them: none holds two line feeds in a row,
    and none but the last ends with a line feed. *)
Fixpoint well_split (ps : list str) : Prop :=
  match ps with
  | [] => True
  | p :: ps' =>
      has_nlnl p = false /\ (ps' <> [] -> ends_with_nl p = false) /\ well_split ps'
  end.

(** [page.extract_text() or ""] *)
Definition page_text (page : option str) : str :=
  match page with Some t => t | None => [] end.

(** The texts of the shapes of a slide that have a non-empty one. *)
Definition shape_texts (shapes : list (option str)) : list str :=
  flat_map (fun shape => match shape with
                         | Some t => if truthy t then [t] else []
                         | None => []
                         end) shapes.

(** The paragraphs a slide leaves in the text of a presentation: its
    heading, after the line feed that ends the slide before it, and the
    paragraphs of its shapes. *)
Definition slide_paragraphs (i : nat) (shapes : list (option str)) : list str :=
  ((if (i =? 0)%nat then [] else [nl]) ++ py "## Slide " ++ str_of_nat (i + 1))
  :: flat_map paragraphs_of (shape_texts shapes).

(** The text an element of a page adds, without the blank line or the
    line feed that ends it. *)
Definition element_block (elem : html_tag * str) : str :=
  match fst elem with
  | Heading level => repeat hash level ++ [space] ++ strip (snd elem)
  | Paragraph => strip (snd elem)
  | ListItem => py "- " ++ strip (snd elem)
  end.

Definition is_list_item (elem : html_tag * str) : bool :=
  match fst elem with ListItem => true | _ => false end.

(** The line of the title element. *)
Definition title_block (title : option str) : list str :=
  match title with Some t => [py "# " ++ t] | None => [] end.

(** * The proofs *)

(** ** The string primitives on examples *)

Example py_escape : py "a\n\nb" = [97; 10; 10; 98]%N.
Proof. reflexivity. Qed.

Example split_nlnl_three : split_nlnl (py "a\n\n\nb") = [py "a"; py "\nb"].
Proof. reflexivity. Qed.

Example split_nlnl_empty : split_nlnl [] = [[]].
Proof. reflexivity. Qed.

Example split_ws_ex : split_ws (py "  ab  c\nd ") = [py "ab"; py "c"; py "d"].
Proof. reflexivity. Qed.

Example re_split_sentences_ex :
  re_split_sentences false false (py "Hi.  There! x y. ")
  = [py "Hi."; py "There!"; py "x y."; []].
Proof. reflexivity. Qed.

Example is_heading_ex :
  (is_heading (py "## Title"), is_heading (py "####### x"), is_heading (py "#x"),
   is_heading (py "# "), is_heading (py " # x"))
  = (true, false, false, true, false).
Proof. reflexivity. Qed.

Example str_of_nat_ex : (str_of_nat 0, str_of_nat 12) = (py "0", py "12").
Proof. reflexivity. Qed.

Example re_split_heading_backtracking :
  re_split_heading true 0 (py "x # y\n#  ") = [py "x # y"; py "\n"; py "#  "; []; []]
  /\ re_split_heading true 0 (py "# \n") = [py "# \n"]
  /\ re_split_heading true 0 (py "#\n\nfoo") = [[]; []; py "#\n\nfoo"; []; []]
  /\ re_split_heading true 0 (py "a\n## B c\nd\n#x\n# e\n# f")
     = [py "a"; py "\n"; py "## B c"; py "\n"; py "d\n#x"; py "\n"; py "# e"; py "\n";
        []; []; py "# f"; []; []].
Proof. repeat split. Qed.

Example punctuation_length : length punctuation = 32%nat.
Proof. reflexivity. Qed.

Example extract_keywords_ranking :
  extract_keywords env_simple
    (py "The cat and the dog; dog with Cat, bird bird BIRD it is") 2
  = [py "bird"; py "cat"].
Proof. reflexivity. Qed.

Example extract_keywords_failure :
  extract_keywords env_no_nltk (py "some text") 0
  = [py "Error extracting keywords: stopwords"].
Proof. reflexivity. Qed.

Example add_metadata_two :
  add_metadata env_simple
    {| session_extract_keywords := Some true; session_max_keywords := None |}
    [py "alpha beta alpha"; py "gamma"] (py "f.txt") (py "Token-based")
  = Ok [py "---\nCHUNK: 1/2\nSOURCE: f.txt\nCHUNKING_METHOD: Token-based\nTOKENS: ~3\nKEYWORDS: alpha, beta\n---\n\nalpha beta alpha";
        py "---\nCHUNK: 2/2\nSOURCE: f.txt\nCHUNKING_METHOD: Token-based\nTOKENS: ~1\nKEYWORDS: gamma\n---\n\ngamma"].
Proof. reflexivity. Qed.

(** ** Greedy groupings *)

Section GreedyFacts.

Variables X S : Type.
Variable start : X -> S.
Variable extend : S -> X -> S.
Variable cut : S -> X -> bool.

Lemma state_of_snoc x0 c x :
  state_of start extend x0 (c ++ [x]) = extend (state_of start extend x0 c) x.
Proof. unfold state_of. rewrite fold_left_app. reflexivity. Qed.

Lemma greedy_invariant : forall xs x0 c st,
  st = state_of start extend x0 c ->
  exists r0 gs',
    greedy start extend cut (x0 :: c) st xs = (x0 :: c ++ r0) :: gs'
    /\ concat (greedy start extend cut (x0 :: c) st xs) = x0 :: c ++ xs
    /\ Forall (fun g => g <> []) gs'
    /\ (forall pre x post,
           r0 = pre ++ x :: post ->
           cut (state_of start extend x0 (c ++ pre)) x = false)
    /\ (forall y0 pre x post,
           In (y0 :: pre ++ x :: post) gs' ->
           cut (state_of start extend y0 pre) x = false)
    /\ (forall l1 y0 g x g' l2,
           greedy start extend cut (x0 :: c) st xs
           = l1 ++ (y0 :: g) :: (x :: g') :: l2 ->
           cut (state_of start extend y0 g) x = true).
Proof.
  induction xs as [|x xs IH]; intros x0 c st Hst; simpl.
  - exists [], []. rewrite !app_nil_r. repeat split; auto.
    + intros pre x post H. destruct pre; discriminate.
    + intros y0 pre x post [].
    + intros [|a l1] y0 g x g' l2 H; simpl in H.
      * discriminate.
      * destruct l1; discriminate.
  - destruct (cut st x) eqn:Hcut.
    + destruct (IH x [] (start x) eq_refl) as (r1 & gs1 & Hg & Hc & Hne & Hin0 & Hin & Hadj).
      simpl in Hg, Hc. exists [], (greedy start extend cut [x] (start x) xs).
      rewrite app_nil_r. repeat split.
      * simpl. rewrite Hc. reflexivity.
      * rewrite Hg. constructor; [discriminate | exact Hne].
      * intros pre y post H. destruct pre; discriminate.
      * intros y0 pre y post H. rewrite Hg in H. destruct H as [H | H].
        -- injection H as -> ->. apply (Hin0 pre y post eq_refl).
        -- apply (Hin _ _ _ _ H).
      * intros [|a l1] y0 g y g' l2 H; simpl in H.
        -- rewrite Hg in H. injection H as -> -> -> _ _. subst st. exact Hcut.
        -- injection H as _ H. apply (Hadj _ _ _ _ _ _ H).
    + destruct (IH x0 (c ++ [x]) (extend st x)) as (r1 & gs1 & Hg & Hc & Hne & Hin0 & Hin & Hadj).
      { subst st. symmetry. apply state_of_snoc. }
      change (x0 :: c ++ [x]) with ((x0 :: c) ++ [x]) in *.
      exists (x :: r1), gs1. repeat split; auto.
      * rewrite Hg. simpl. rewrite <- app_assoc. reflexivity.
      * rewrite Hc. simpl. rewrite <- app_assoc. reflexivity.
      * intros pre y post H. destruct pre as [|z pre]; simpl in H.
        -- injection H as -> _. rewrite app_nil_r. subst st. exact Hcut.
        -- injection H as -> H.
           specialize (Hin0 pre y post H). rewrite <- app_assoc in Hin0. exact Hin0.
Qed.

(** The groups the loop makes are a greedy grouping of the items. *)
Theorem greedy_groups_grouping xs :
  greedy_grouping start extend cut xs (greedy_groups start extend cut xs).
Proof.
  destruct xs as [|x xs]; simpl.
  - repeat split; auto.
    + intros x0 pre x post [].
    + intros [|a l1] x0 g x g' l2 H; discriminate.
  - destruct (greedy_invariant xs x [] (start x) eq_refl)
      as (r0 & gs' & Hg & Hc & Hne & Hin0 & Hin & Hadj).
    simpl in Hg, Hc. repeat split.
    + exact Hc.
    + rewrite Hg. constructor; [discriminate | exact Hne].
    + intros x0 pre y post H. rewrite Hg in H. destruct H as [H | H].
      * injection H as -> ->. apply (Hin0 pre y post eq_refl).
      * apply (Hin _ _ _ _ H).
    + exact Hadj.
Qed.

End GreedyFacts.

(** ** The paragraph chunker *)

Lemma truthy_true {A : Type} (l : list A) : truthy l = true <-> l <> [].
Proof. destruct l; simpl; split; congruence. Qed.

Lemma para_state_of x0 l :
  state_of para_start para_extend x0 l = Z.of_nat (length (x0 :: l)).
Proof.
  unfold state_of, para_start.
  assert (H : forall n, fold_left para_extend l n = n + Z.of_nat (length l)).
  { induction l as [|y l IH]; intros n; simpl fold_left.
    - simpl. lia.
    - rewrite IH. unfold para_extend. simpl length. lia. }
  rewrite H. simpl length. lia.
Qed.

Lemma para_cut_true max_paragraphs n para :
  para_cut max_paragraphs n para = true <->
  max_paragraphs <= n
  \/ (0 < n /\ is_heading para = true /\ Z.max 2 (max_paragraphs / 2) <= n).
Proof.
  unfold para_cut.
  rewrite orb_true_iff, !andb_true_iff, !Z.geb_le, Z.gtb_lt. tauto.
Qed.

Lemma para_step_eq max_paragraphs cs cur n para :
  para_step max_paragraphs
    {| p_chunks := cs; p_current_chunk := cur; p_current_count := n |} para
  = if para_cut max_paragraphs n para
    then {| p_chunks := cs ++ [join nlnl cur]; p_current_chunk := [para];
            p_current_count := 1 |}
    else {| p_chunks := cs; p_current_chunk := cur ++ [para];
            p_current_count := n + 1 |}.
Proof. reflexivity. Qed.

Lemma para_loop max_paragraphs : forall ps cs cur n,
  cur <> [] ->
  truthy (p_current_chunk
            (fold_left (para_step max_paragraphs) ps
               {| p_chunks := cs; p_current_chunk := cur; p_current_count := n |}))
  = true
  /\ p_chunks (fold_left (para_step max_paragraphs) ps
                 {| p_chunks := cs; p_current_chunk := cur; p_current_count := n |})
     ++ [join nlnl
           (p_current_chunk
              (fold_left (para_step max_paragraphs) ps
                 {| p_chunks := cs; p_current_chunk := cur; p_current_count := n |}))]
     = cs ++ map (join nlnl)
               (greedy para_start para_extend (para_cut max_paragraphs) cur n ps).
Proof.
  induction ps as [|p ps IH]; intros cs cur n Hcur; cbn [fold_left greedy].
  - split; [apply truthy_true; exact Hcur | reflexivity].
  - rewrite para_step_eq. destruct (para_cut max_paragraphs n p).
    + destruct (IH (cs ++ [join nlnl cur]) [p] 1) as [H1 H2]; [discriminate|].
      split; [exact H1|]. rewrite H2. cbn [map]. rewrite <- app_assoc. reflexivity.
    + destruct (IH cs (cur ++ [p]) (n + 1)) as [H1 H2].
      { destruct cur; discriminate. }
      split; [exact H1 | exact H2].
Qed.

Lemma chunk_by_paragraphs_groups text max_paragraphs :
  1 <= max_paragraphs ->
  chunk_by_paragraphs text max_paragraphs
  = if truthy (paragraphs_of text)
    then map (join nlnl) (paragraph_groups max_paragraphs (paragraphs_of text))
    else [[]].
Proof.
  intros Hmax. unfold chunk_by_paragraphs, paragraph_groups.
  destruct (paragraphs_of text) as [|p ps]; [reflexivity|].
  cbv zeta. cbn [truthy negb fold_left greedy_groups].
  assert (Hcut : para_cut max_paragraphs 0 p = false).
  { destruct (para_cut max_paragraphs 0 p) eqn:E; [|reflexivity].
    apply para_cut_true in E. lia. }
  rewrite para_step_eq, Hcut.
  change (0 + 1) with 1. change (para_start p) with 1.
  change ([] ++ [p]) with [p].
  destruct (para_loop max_paragraphs ps [] [p] 1) as [H1 H2]; [discriminate|].
  rewrite H1. exact H2.
Qed.

Lemma paragraph_groups_rule max_paragraphs paragraphs :
  1 <= max_paragraphs ->
  paragraph_rule max_paragraphs paragraphs
    (paragraph_groups max_paragraphs paragraphs).
Proof.
  intros Hmax. unfold paragraph_groups.
  destruct (greedy_groups_grouping _ _ para_start para_extend
              (para_cut max_paragraphs) paragraphs) as (Hc & Hne & Hin & Hadj).
  set (groups := greedy_groups para_start para_extend (para_cut max_paragraphs)
                   paragraphs) in *.
  assert (Hinside : forall pre para post,
             In (pre ++ para :: post) groups -> pre <> [] ->
             Z.of_nat (length pre) < max_paragraphs
             /\ ~ (minimum_paragraphs max_paragraphs <= Z.of_nat (length pre)
                   /\ is_heading para = true)).
  { intros pre para post Hg Hpre. destruct pre as [|x0 pre]; [congruence|].
    specialize (Hin x0 pre para post Hg). rewrite para_state_of in Hin.
    assert (Hn : ~ para_cut max_paragraphs (Z.of_nat (length (x0 :: pre))) para = true)
      by congruence.
    rewrite para_cut_true in Hn. unfold minimum_paragraphs.
    assert (0 < Z.of_nat (length (x0 :: pre))) by (simpl length; lia).
    split; [lia | tauto]. }
  assert (Hsize : forall g, In g groups ->
             g <> [] /\ Z.of_nat (length g) <= max_paragraphs).
  { intros g Hg. rewrite Forall_forall in Hne. split; [apply Hne; exact Hg|].
    destruct g as [|x0 l]; [simpl; lia|].
    destruct l as [|y l] using rev_ind; [simpl; lia|].
    change (x0 :: l ++ [y]) with ((x0 :: l) ++ [y]) in *.
    destruct (Hinside (x0 :: l) y [] Hg) as [H _]; [discriminate|].
    rewrite length_app. simpl length in *. lia. }
  repeat split.
  - exact Hc.
  - apply Hsize; assumption.
  - apply Hsize; assumption.
  - intros l1 g para g' l2 Heq.
    assert (Hg : In g groups) by (rewrite Heq; apply in_elt).
    destruct (Hsize g Hg) as [Hg0 Hlen].
    destruct g as [|x0 r]; [congruence|].
    specialize (Hadj l1 x0 r para g' l2 Heq). rewrite para_state_of in Hadj.
    apply para_cut_true in Hadj. unfold minimum_paragraphs.
    destruct Hadj as [H | (_ & H1 & H2)]; [left; lia | right; split; assumption].
  - apply (Hinside pre para post); assumption.
  - apply (Hinside pre para post); assumption.
Qed.

(** C5, as the code has it. For every text and every [max_paragraphs >= 1]
    the chunks of the paragraph chunker are the joined groups of a grouping
    of the paragraphs that follows [paragraph_rule]: a new chunk starts
    exactly when (a) the current chunk holds [max_paragraphs] paragraphs,
    or (b) it holds at least [max(2, max_paragraphs // 2)] and the next
    paragraph is a heading; so no chunk has more than [max_paragraphs]
    paragraphs, and a chunk that ends before it is full has reached the
    minimum. For [max_paragraphs >= 2] every chunk that ends has reached
    the minimum; for [max_paragraphs = 1] a full chunk is below it. *)
Theorem chunk_by_paragraphs_rule (text : str) (max_paragraphs : Z) :
  1 <= max_paragraphs ->
  exists groups : list (list str),
    paragraph_rule max_paragraphs (paragraphs_of text) groups
    /\ chunk_by_paragraphs text max_paragraphs
       = (if truthy (paragraphs_of text) then map (join nlnl) groups else [[]])
    /\ (2 <= max_paragraphs ->
        forall l1 g g' l2, groups = l1 ++ g :: g' :: l2 ->
                           minimum_paragraphs max_paragraphs <= Z.of_nat (length g)).
Proof.
  intros Hmax. exists (paragraph_groups max_paragraphs (paragraphs_of text)).
  pose proof (paragraph_groups_rule max_paragraphs (paragraphs_of text) Hmax) as Hrule.
  split; [exact Hrule|]. split; [apply chunk_by_paragraphs_groups; exact Hmax|].
  intros H2 l1 g g' l2 Heq. destruct Hrule as (_ & Hsize & Hadj & _).
  assert (Hg' : In g' (paragraph_groups max_paragraphs (paragraphs_of text))).
  { rewrite Heq. apply in_or_app. right. right. left. reflexivity. }
  destruct (Hsize g' Hg') as [Hne _]. destruct g' as [|para g']; [congruence|].
  destruct (Hadj l1 g para g' l2 Heq) as [H | [H _]]; [|exact H].
  rewrite H. unfold minimum_paragraphs. apply Z.max_lub; [lia|].
  apply Z.div_le_upper_bound; lia.
Qed.

Lemma chunk_by_paragraphs_rule_witness :
  exists groups : list (list str),
    paragraph_rule 3 (paragraphs_of (py "a\n\nb\n\n# c\n\nd")) groups
    /\ chunk_by_paragraphs (py "a\n\nb\n\n# c\n\nd") 3
       = (if truthy (paragraphs_of (py "a\n\nb\n\n# c\n\nd"))
          then map (join nlnl) groups else [[]])
    /\ (2 <= 3 ->
        forall l1 g g' l2, groups = l1 ++ g :: g' :: l2 ->
                           minimum_paragraphs 3 <= Z.of_nat (length g)).
Proof.
  apply (chunk_by_paragraphs_rule (py "a\n\nb\n\n# c\n\nd") 3). lia.
Defined.

(** With [max_paragraphs = 1] the heading ["# b"] starts a new chunk when
    the current chunk holds one paragraph, below the minimum of two. *)
Lemma chunk_by_paragraphs_heading_below_minimum :
  chunk_by_paragraphs (py "a\n\n# b") 1 = [py "a"; py "# b"]
  /\ is_heading (py "# b") = true
  /\ Z.of_nat (length [py "a"]) < Z.max 2 (1 / 2).
Proof. repeat split. Qed.

(** ** The token-budget chunker *)

Lemma sentence_token_count_nonneg env s : 0 <= sentence_token_count env s.
Proof. unfold sentence_token_count. destruct (word_tokenize env s); lia. Qed.

Lemma total_tokens_cons env s g :
  total_tokens env (s :: g) = sentence_token_count env s + total_tokens env g.
Proof. reflexivity. Qed.

Lemma total_tokens_nonneg env g : 0 <= total_tokens env g.
Proof.
  induction g as [|s g IH]; [reflexivity|].
  rewrite total_tokens_cons. pose proof (sentence_token_count_nonneg env s). lia.
Qed.

Lemma total_tokens_app env g1 g2 :
  total_tokens env (g1 ++ g2) = total_tokens env g1 + total_tokens env g2.
Proof.
  induction g1 as [|s g1 IH]; [reflexivity|].
  rewrite <- app_comm_cons, !total_tokens_cons, IH. lia.
Qed.

Lemma total_tokens_In env g s :
  In s g -> sentence_token_count env s <= total_tokens env g.
Proof.
  induction g as [|x g IH]; [intros []|].
  rewrite total_tokens_cons. intros [-> | H].
  - pose proof (total_tokens_nonneg env g). lia.
  - specialize (IH H). pose proof (sentence_token_count_nonneg env x). lia.
Qed.

Lemma token_state_of env x0 l :
  state_of (token_start env) (token_extend env) x0 l = total_tokens env (x0 :: l).
Proof.
  unfold state_of, token_start.
  assert (H : forall n, fold_left (token_extend env) l n = n + total_tokens env l).
  { induction l as [|y l IH]; intros n; cbn [fold_left].
    - change (total_tokens env []) with 0. lia.
    - rewrite IH, total_tokens_cons. unfold token_extend. lia. }
  rewrite H. reflexivity.
Qed.

Lemma token_step_eq env max_tokens cs cur n s :
  cur <> [] ->
  token_step env max_tokens
    {| t_chunks := cs; t_current_chunk := cur; t_current_token_count := n |} s
  = if token_cut env max_tokens n s
    then {| t_chunks := cs ++ [join [space] cur]; t_current_chunk := [s];
            t_current_token_count := sentence_token_count env s |}
    else {| t_chunks := cs; t_current_chunk := cur ++ [s];
            t_current_token_count := n + sentence_token_count env s |}.
Proof.
  intros Hcur. unfold token_step, token_cut. cbn [t_chunks t_current_chunk t_current_token_count].
  apply truthy_true in Hcur. rewrite Hcur, andb_true_r. reflexivity.
Qed.

Lemma token_loop env max_tokens : forall ss cs cur n,
  cur <> [] ->
  truthy (t_current_chunk
            (fold_left (token_step env max_tokens) ss
               {| t_chunks := cs; t_current_chunk := cur;
                  t_current_token_count := n |}))
  = true
  /\ t_chunks (fold_left (token_step env max_tokens) ss
                 {| t_chunks := cs; t_current_chunk := cur;
                    t_current_token_count := n |})
     ++ [join [space]
           (t_current_chunk
              (fold_left (token_step env max_tokens) ss
                 {| t_chunks := cs; t_current_chunk := cur;
                    t_current_token_count := n |}))]
     = cs ++ map (join [space])
               (greedy (token_start env) (token_extend env)
                  (token_cut env max_tokens) cur n ss).
Proof.
  induction ss as [|s ss IH]; intros cs cur n Hcur; cbn [fold_left greedy].
  - split; [apply truthy_true; exact Hcur | reflexivity].
  - rewrite token_step_eq by exact Hcur. destruct (token_cut env max_tokens n s).
    + destruct (IH (cs ++ [join [space] cur]) [s] (sentence_token_count env s))
        as [H1 H2]; [discriminate|].
      split; [exact H1|]. rewrite H2. cbn [map]. rewrite <- app_assoc. reflexivity.
    + destruct (IH cs (cur ++ [s]) (n + sentence_token_count env s)) as [H1 H2].
      { destruct cur; discriminate. }
      split; [exact H1 | exact H2].
Qed.

Lemma pack_sentences_groups env max_tokens sentences :
  pack_sentences env max_tokens sentences
  = map (join [space]) (sentence_groups env max_tokens sentences).
Proof.
  unfold pack_sentences, sentence_groups.
  destruct sentences as [|s ss]; [reflexivity|].
  cbv zeta. cbn [fold_left greedy_groups].
  unfold token_step at 2 4 6.
  cbn [t_chunks t_current_chunk t_current_token_count truthy].
  rewrite andb_false_r. change ([] ++ [s]) with [s].
  change (0 + sentence_token_count env s) with (token_start env s).
  destruct (token_loop env max_tokens ss [] [s] (token_start env s)) as [H1 H2];
    [discriminate|].
  rewrite H1. exact H2.
Qed.

Lemma sentence_groups_rule env max_tokens sentences :
  token_rule env max_tokens sentences (sentence_groups env max_tokens sentences).
Proof.
  unfold sentence_groups.
  destruct (greedy_groups_grouping _ _ (token_start env) (token_extend env)
              (token_cut env max_tokens) sentences) as (Hc & Hne & Hin & Hadj).
  set (groups := greedy_groups (token_start env) (token_extend env)
                   (token_cut env max_tokens) sentences) in *.
  assert (Hsize : forall g, In g groups ->
             g <> []
             /\ (total_tokens env g <= max_tokens
                 \/ exists s, g = [s] /\ max_tokens < sentence_token_count env s)).
  { intros g Hg. rewrite Forall_forall in Hne. split; [apply Hne; exact Hg|].
    destruct g as [|x0 l]; [left; apply Hne in Hg; congruence|].
    destruct l as [|y l _] using rev_ind.
    - destruct (Z_le_gt_dec (total_tokens env [x0]) max_tokens) as [H | H];
        [left; exact H | right].
      exists x0. split; [reflexivity|]. rewrite total_tokens_cons in H.
      change (total_tokens env []) with 0 in H. lia.
    - left. specialize (Hin x0 l y [] Hg). rewrite token_state_of in Hin.
      unfold token_cut in Hin.
      change (x0 :: l ++ [y]) with ((x0 :: l) ++ [y]).
      rewrite total_tokens_app, (total_tokens_cons env y []).
      change (total_tokens env []) with 0.
      destruct (Z.gtb_spec (total_tokens env (x0 :: l) + sentence_token_count env y)
                  max_tokens); [discriminate | lia]. }
  repeat split.
  - exact Hc.
  - apply Hsize; assumption.
  - apply Hsize; assumption.
  - intros g s Hg Hs Hover. destruct (Hsize g Hg) as [_ [H | (s' & -> & _)]].
    + pose proof (total_tokens_In env g s Hs). lia.
    + destruct Hs as [-> | []]. reflexivity.
  - intros l1 g s g' l2 Heq.
    assert (Hg : In g groups) by (rewrite Heq; apply in_elt).
    destruct (Hsize g Hg) as [Hg0 _]. destruct g as [|x0 r]; [congruence|].
    specialize (Hadj l1 x0 r s g' l2 Heq). rewrite token_state_of in Hadj.
    unfold token_cut in Hadj. apply Z.gtb_lt in Hadj. exact Hadj.
Qed.

(** C4. For every text and every [max_tokens >= 1] for which the sentence
    splitter returns, the token-budget chunker returns the joined groups
    of a grouping of the sentences that follows [token_rule]: every
    chunk's running token count is at most [max_tokens] unless the chunk
    is exactly one sentence whose own count exceeds [max_tokens]; such a
    sentence is a chunk of its own, and no sentence is dropped or cut. *)
Theorem chunk_by_tokens_budget (env : Env) (text : str) (max_tokens : Z)
  (sentences : list str) :
  1 <= max_tokens ->
  sentences_of env text = Ok sentences ->
  exists groups : list (list str),
    token_rule env max_tokens sentences groups
    /\ chunk_by_tokens env text max_tokens = Ok (map (join [space]) groups).
Proof.
  intros _ Hs. exists (sentence_groups env max_tokens sentences).
  split; [apply sentence_groups_rule|].
  unfold chunk_by_tokens. rewrite Hs. cbn [bind].
  rewrite pack_sentences_groups. reflexivity.
Qed.

Lemma chunk_by_tokens_budget_witness :
  exists groups : list (list str),
    token_rule env_no_nltk 4
      [py "One two."; py "Three four five six seven."; py "Eight."] groups
    /\ chunk_by_tokens env_no_nltk
         (py "One two. Three four five six seven. Eight.") 4
       = Ok (map (join [space]) groups).
Proof.
  apply (chunk_by_tokens_budget env_no_nltk
           (py "One two. Three four five six seven. Eight.") 4).
  - lia.
  - reflexivity.
Defined.

Example chunk_by_tokens_over_budget :
  chunk_by_tokens env_no_nltk (py "One two. Three four five six seven. Eight.") 4
  = Ok [py "One two."; py "Three four five six seven."; py "Eight."].
Proof. reflexivity. Qed.

(** ** The similarity chunker *)

Lemma score_gt_spec a b : score_gt a b = true <-> (b < a)%Q.
Proof.
  unfold score_gt. rewrite negb_true_iff. split.
  - intros H. apply Qnot_le_lt. intros Hle. apply Qle_bool_iff in Hle. congruence.
  - intros H. destruct (Qle_bool a b) eqn:E; [|reflexivity].
    apply Qle_bool_iff in E. exfalso. exact (Qlt_not_le _ _ H E).
Qed.

Lemma total_words_cons env p g :
  total_words env (p :: g) = word_count env p + total_words env g.
Proof. reflexivity. Qed.

Lemma sim_state_of env a pa l :
  state_of (sim_start env) (sim_extend env) (a, pa) l
  = (a, word_count env pa + total_words env (map snd l)).
Proof.
  unfold state_of.
  assert (H : forall st, fold_left (sim_extend env) l st
                         = (fst st, snd st + total_words env (map snd l))).
  { induction l as [|y l IH]; intros st; cbn [fold_left map].
    - change (total_words env []) with 0. rewrite Z.add_0_r. destruct st; reflexivity.
    - rewrite IH, total_words_cons. unfold sim_extend. cbn [fst snd].
      f_equal. lia. }
  rewrite H. reflexivity.
Qed.

Lemma similarity_step_eq env max_tokens thr (ps : list str) sim cs cur n idx i words :
  word_tokenize env (nth i ps []) = Ok words ->
  similarity_step env max_tokens thr ps sim
    {| s_chunks := cs; s_current_chunk := cur; s_current_token_count := n;
       s_current_idx := idx |} i
  = Ok (if sim_merge env max_tokens thr sim (idx, n) (i, nth i ps [])
        then {| s_chunks := cs; s_current_chunk := cur ++ [nth i ps []];
                s_current_token_count := n + word_count env (nth i ps []);
                s_current_idx := idx |}
        else {| s_chunks := cs ++ [join nlnl cur]; s_current_chunk := [nth i ps []];
                s_current_token_count := word_count env (nth i ps []);
                s_current_idx := i |}).
Proof.
  intros Hw. unfold similarity_step, sim_merge, word_count.
  cbn [fst snd s_chunks s_current_chunk s_current_token_count s_current_idx].
  rewrite Hw. cbn [bind].
  destruct (score_gt (sim idx i) thr && (n + Z.of_nat (length words) <=? max_tokens));
    reflexivity.
Qed.

Lemma similarity_loop env max_tokens thr (ps : list str) sim :
  forall (xs pre : list str) cs curI n idx,
  ps = pre ++ xs ->
  forallb (fun p => returns (word_tokenize env p)) xs = true ->
  curI <> [] ->
  exists st,
    for_each (similarity_step env max_tokens thr ps sim)
      (seq (length pre) (length xs))
      {| s_chunks := cs; s_current_chunk := map snd curI;
         s_current_token_count := n; s_current_idx := idx |} = Ok st
    /\ truthy (s_current_chunk st) = true
    /\ s_chunks st ++ [join nlnl (s_current_chunk st)]
       = cs ++ map render
                 (greedy (sim_start env) (sim_extend env)
                    (sim_cut env max_tokens thr sim) curI (idx, n)
                    (combine (seq (length pre) (length xs)) xs)).
Proof.
  induction xs as [|x xs IH]; intros pre cs curI n idx Hps Hret Hcur;
    cbn [length seq for_each combine greedy].
  - eexists. split; [reflexivity|]. cbn [s_current_chunk s_chunks map].
    split; [|reflexivity]. apply truthy_true. destruct curI; [congruence | discriminate].
  - cbn [forallb] in Hret. apply andb_true_iff in Hret. destruct Hret as [Hx Hret].
    assert (Hnth : nth (length pre) ps [] = x) by (rewrite Hps; apply nth_middle).
    destruct (word_tokenize env x) as [words|] eqn:Hw; [|discriminate].
    rewrite (similarity_step_eq _ _ _ _ _ _ _ _ _ _ words) by (rewrite Hnth; exact Hw).
    cbn [bind]. rewrite Hnth. unfold sim_cut at 1.
    assert (Hlen : length (pre ++ [x]) = S (length pre))
      by (rewrite length_app; simpl; lia).
    assert (Hps' : ps = (pre ++ [x]) ++ xs) by (rewrite <- app_assoc; exact Hps).
    destruct (sim_merge env max_tokens thr sim (idx, n) (length pre, x)); cbn [negb].
    + destruct (IH (pre ++ [x]) cs (curI ++ [(length pre, x)])
                  (n + word_count env x) idx Hps' Hret) as (st & H1 & H2 & H3).
      { destruct curI; discriminate. }
      rewrite Hlen, map_app in H1. rewrite Hlen in H3.
      exists st. split; [exact H1|]. split; [exact H2|]. exact H3.
    + destruct (IH (pre ++ [x]) (cs ++ [join nlnl (map snd curI)]) [(length pre, x)]
                  (word_count env x) (length pre) Hps' Hret) as (st & H1 & H2 & H3).
      { discriminate. }
      rewrite Hlen in H1, H3.
      exists st. split; [exact H1|]. split; [exact H2|].
      rewrite H3. cbn [map]. rewrite <- app_assoc. reflexivity.
Qed.

Lemma py_range_1 n : py_range 1 n 1 = seq 1 (n - 1).
Proof.
  unfold py_range. replace ((n - 1 + 1 - 1) / 1)%nat with (n - 1)%nat
    by (rewrite Nat.div_1_r; lia).
  rewrite <- seq_shift. apply map_ext. intros k. lia.
Qed.

Lemma sim_merge_spec env max_tokens thr sim a n i p :
  sim_merge env max_tokens thr sim (a, n) (i, p) = true
  <-> (thr < sim a i)%Q /\ n + word_count env p <= max_tokens.
Proof.
  unfold sim_merge. cbn [fst snd].
  rewrite andb_true_iff, score_gt_spec, Z.leb_le. tauto.
Qed.

Lemma similarity_groups_rule env max_tokens thr sim paragraphs :
  similarity_rule env max_tokens thr sim paragraphs
    (similarity_groups env max_tokens thr sim paragraphs).
Proof.
  unfold similarity_groups.
  destruct (greedy_groups_grouping _ _ (sim_start env) (sim_extend env)
              (sim_cut env max_tokens thr sim) (indexed paragraphs))
    as (Hc & Hne & Hin & Hadj).
  repeat split.
  - exact Hc.
  - rewrite Forall_forall in Hne. exact Hne.
  - specialize (Hin (a, pa) pre (i, p) post H). rewrite sim_state_of in Hin.
    unfold sim_cut in Hin. apply negb_false_iff in Hin.
    apply sim_merge_spec in Hin. apply Hin.
  - specialize (Hin (a, pa) pre (i, p) post H). rewrite sim_state_of in Hin.
    unfold sim_cut in Hin. apply negb_false_iff in Hin.
    apply sim_merge_spec in Hin. apply Hin.
  - intros l1 a pa g i p g' l2 Heq Hboth.
    specialize (Hadj l1 (a, pa) g (i, p) g' l2 Heq). rewrite sim_state_of in Hadj.
    unfold sim_cut in Hadj. apply negb_true_iff in Hadj.
    apply sim_merge_spec in Hboth. congruence.
Qed.

(** C6. On the path without fallback (scikit-learn present, four
    paragraphs or more, vectorization and [word_tokenize] return) the
    similarity chunker returns the joined groups of a grouping that follows
    [similarity_rule]: a paragraph after the first is appended to the
    current chunk if and only if its similarity to the chunk's anchor is
    strictly above [similarity_threshold] and the running token count
    stays at most [max_tokens]; otherwise the chunk is closed and the
    paragraph is the anchor of a new chunk whose count starts at its own;
    all in one pass from left to right. *)
Theorem chunk_by_semantic_similarity_greedy (env : Env) (text : str)
  (max_tokens : Z) (similarity_threshold : Q) (similarities : nat -> nat -> Q) :
  has_sklearn env = true ->
  (4 <= length (paragraphs_of text))%nat ->
  tfidf_similarities env (paragraphs_of text) = Ok similarities ->
  forallb (fun p => returns (word_tokenize env p)) (paragraphs_of text) = true ->
  exists groups : list (list (nat * str)),
    similarity_rule env max_tokens similarity_threshold similarities
      (paragraphs_of text) groups
    /\ chunk_by_semantic_similarity env text max_tokens similarity_threshold
       = Ok (map render groups).
Proof.
  intros Hsk Hlen Htf Hret.
  exists (similarity_groups env max_tokens similarity_threshold similarities
            (paragraphs_of text)).
  split; [apply similarity_groups_rule|].
  unfold chunk_by_semantic_similarity, similarity_body, similarity_groups.
  rewrite Hsk. cbn [negb]. cbv zeta.
  destruct (paragraphs_of text) as [|p0 rest] eqn:Hps; [simpl in Hlen; lia|].
  cbn [truthy negb]. rewrite Htf.
  destruct (Nat.leb_spec (length (p0 :: rest)) 3) as [H | _]; [lia|].
  cbn [nth]. cbn [forallb] in Hret. apply andb_true_iff in Hret.
  destruct Hret as [H0 Hret].
  destruct (word_tokenize env p0) as [words|] eqn:Hw; [|discriminate].
  cbn [bind]. rewrite py_range_1.
  replace (length (p0 :: rest) - 1)%nat with (length rest) by (simpl; lia).
  destruct (similarity_loop env max_tokens similarity_threshold (p0 :: rest)
              similarities rest [p0] [] [(0%nat, p0)] (Z.of_nat (length words)) 0%nat
              eq_refl Hret) as (st & H1 & H2 & H3); [discriminate|].
  cbn [length map snd] in H1. rewrite H1. cbn [bind try_except].
  rewrite H2, H3. cbn [app length].
  unfold indexed. cbn [length seq combine greedy_groups].
  replace (sim_start env (0%nat, p0)) with (0%nat, Z.of_nat (length words))
    by (unfold sim_start, word_count; cbn [fst snd]; rewrite Hw; reflexivity).
  reflexivity.
Qed.

Lemma chunk_by_semantic_similarity_greedy_witness :
  exists groups : list (list (nat * str)),
    similarity_rule env_simple 4 (3 # 10)
      (fun i j => (1 # Pos.of_succ_nat (Nat.max i j - Nat.min i j))%Q)
      (paragraphs_of (py "a b\n\nc d\n\ne f\n\ng h\n\ni")) groups
    /\ chunk_by_semantic_similarity env_simple (py "a b\n\nc d\n\ne f\n\ng h\n\ni")
         4 (3 # 10)
       = Ok (map render groups).
Proof.
  apply (chunk_by_semantic_similarity_greedy env_simple
           (py "a b\n\nc d\n\ne f\n\ng h\n\ni") 4 (3 # 10)).
  - reflexivity.
  - vm_compute. lia.
  - reflexivity.
  - reflexivity.
Defined.

Example chunk_by_semantic_similarity_run :
  chunk_by_semantic_similarity env_simple (py "a b\n\nc d\n\ne f\n\ng h\n\ni") 4 (3 # 10)
  = Ok [py "a b\n\nc d"; py "e f\n\ng h"; py "i"].
Proof. reflexivity. Qed.

(** A score equal to the threshold does not merge: with threshold [1/2]
    the second paragraph, whose similarity to the first is [1/2], starts a
    chunk of its own although the budget would allow it. *)
Example chunk_by_semantic_similarity_equal_threshold :
  chunk_by_semantic_similarity env_simple (py "a\n\nb\n\nc\n\nd") 100 (1 # 2)
  = Ok [py "a"; py "b"; py "c"; py "d"].
Proof. reflexivity. Qed.

(** ** The fallback ladder of the similarity chunker *)

Lemma try_except_same {A : Type} (c : result A) : try_except c (fun _ => c) = c.
Proof. destruct c; reflexivity. Qed.

(** The characters of the pieces of [text.split('\n\n')] are characters
    of the text. *)
Lemma split_nlnl_chars : forall n s, (length s <= n)%nat ->
  forall p c, In p (split_nlnl s) -> In c p -> In c s.
Proof.
  induction n as [|n IH]; intros s Hlen p c Hp Hc.
  - destruct s; [|simpl in Hlen; lia]. destruct Hp as [<- | []]. exact Hc.
  - destruct s as [|a s]; [destruct Hp as [<- | []]; exact Hc|].
    simpl in Hlen.
    assert (Hhead : In p (cons_head a (split_nlnl s)) -> In c (a :: s)).
    { intros H. unfold cons_head in H.
      destruct (split_nlnl s) as [|q qs] eqn:Hs.
      - destruct H as [<- | []]. destruct Hc as [<- | []]. left. reflexivity.
      - destruct H as [<- | H].
        + destruct Hc as [<- | Hc]; [left; reflexivity | right].
          apply (IH s ltac:(lia) q c); [rewrite Hs; left; reflexivity | exact Hc].
        + right. apply (IH s ltac:(lia) p c); [rewrite Hs; right; exact H | exact Hc]. }
    cbn [split_nlnl] in Hp. destruct s as [|d s']; [apply Hhead; exact Hp|].
    destruct ((a =? nl)%N && (d =? nl)%N); [|apply Hhead; exact Hp].
    destruct Hp as [<- | Hp]; [destruct Hc|].
    right. right. simpl in Hlen. apply (IH s' ltac:(lia) p c Hp Hc).
Qed.

Lemma dropwhile_all f s : forallb f s = true -> dropwhile f s = [].
Proof.
  induction s as [|c s IH]; [reflexivity|]. cbn [forallb dropwhile].
  intros H. apply andb_true_iff in H. destruct H as [-> H]. apply IH, H.
Qed.

(** A text of white space only, the empty text included, has no paragraph. *)
Lemma blank_text_no_paragraphs text :
  forallb isspace text = true -> paragraphs_of text = [].
Proof.
  intros Hblank. unfold paragraphs_of.
  assert (H : forall p, In p (split_nlnl text) -> truthy (strip p) = false).
  { intros p Hp. unfold strip. rewrite (dropwhile_all isspace p); [reflexivity|].
    apply forallb_forall. intros c Hc. rewrite forallb_forall in Hblank.
    apply Hblank. apply (split_nlnl_chars (length text) text (le_n _) p c Hp Hc). }
  induction (split_nlnl text) as [|p ps IH]; [reflexivity|].
  cbn [filter]. rewrite (H p (or_introl eq_refl)). apply IH.
  intros q Hq. apply H. right. exact Hq.
Qed.

(** C7, as the code has it. The similarity chunker returns what the
    token-budget chunker returns on the whole text with the same
    [max_tokens] when scikit-learn is missing, and when it is present and
    the text has at least one paragraph and either at most three
    paragraphs or a vectorization that raises. With scikit-learn present
    and no paragraph the result is the single empty chunk instead. *)
Theorem chunk_by_semantic_similarity_fallback (env : Env) (text : str)
  (max_tokens : Z) (similarity_threshold : Q) :
  (has_sklearn env = false
   \/ (paragraphs_of text <> []
       /\ ((length (paragraphs_of text) < 4)%nat
           \/ returns (tfidf_similarities env (paragraphs_of text)) = false)) ->
   chunk_by_semantic_similarity env text max_tokens similarity_threshold
   = chunk_by_tokens env text max_tokens)
  /\ (has_sklearn env = true -> paragraphs_of text = [] ->
      chunk_by_semantic_similarity env text max_tokens similarity_threshold
      = Ok [[]]).
Proof.
  unfold chunk_by_semantic_similarity, similarity_body. split.
  - intros [Hsk | (Hne & Hcase)].
    + rewrite Hsk. reflexivity.
    + destruct (has_sklearn env); [|reflexivity]. cbn [negb]. cbv zeta.
      destruct (paragraphs_of text) as [|p0 rest]; [congruence|].
      cbn [truthy negb].
      destruct (Nat.leb_spec (length (p0 :: rest)) 3) as [H | H].
      * apply try_except_same.
      * destruct Hcase as [Hlt | Hraise]; [lia|].
        destruct (tfidf_similarities env (p0 :: rest)); [discriminate|].
        apply try_except_same.
  - intros Hsk Hps. rewrite Hsk, Hps. reflexivity.
Qed.

Lemma chunk_by_semantic_similarity_fallback_witness :
  chunk_by_semantic_similarity env_no_nltk (py "One. Two.\n\nThree.") 500 (3 # 10)
  = chunk_by_tokens env_no_nltk (py "One. Two.\n\nThree.") 500
  /\ chunk_by_semantic_similarity env_no_nltk (py " \n\n ") 500 (3 # 10) = Ok [[]].
Proof.
  split.
  - apply (chunk_by_semantic_similarity_fallback env_no_nltk
             (py "One. Two.\n\nThree.") 500 (3 # 10)).
    right. split; [discriminate | left; vm_compute; lia].
  - apply (chunk_by_semantic_similarity_fallback env_no_nltk (py " \n\n ") 500 (3 # 10));
      reflexivity.
Defined.

(** With scikit-learn present a text without paragraphs has fewer than
    four paragraphs, yet the result is not the token-budget chunker's:
    on the regular-expression fallback a blank text is one blank chunk,
    and with a sentence splitter that finds no sentence in the empty text
    the token-budget chunker returns no chunk at all. *)
Lemma chunk_by_semantic_similarity_fallback_no_paragraphs :
  has_sklearn env_no_nltk = true
  /\ (length (paragraphs_of (py " ")) < 4)%nat
  /\ chunk_by_semantic_similarity env_no_nltk (py " ") 500 (3 # 10) = Ok [[]]
  /\ chunk_by_tokens env_no_nltk (py " ") 500 = Ok [py " "]
  /\ has_sklearn env_simple = true
  /\ (length (paragraphs_of []) < 4)%nat
  /\ chunk_by_semantic_similarity env_simple [] 500 (3 # 10) = Ok [[]]
  /\ chunk_by_tokens env_simple [] 500 = Ok [].
Proof. repeat split; vm_compute; lia. Qed.

(** C10. With scikit-learn present, a text that splits into no non-empty
    paragraph (the empty text and every text of white space only do) makes
    the similarity chunker return the single empty chunk. The result does
    not depend on the tokenizers, which are not called: it is the same in
    an environment where the token-budget chunker raises. *)
Theorem chunk_by_semantic_similarity_no_paragraphs (env : Env) (text : str)
  (max_tokens : Z) (similarity_threshold : Q) :
  has_sklearn env = true ->
  (forallb isspace text = true -> paragraphs_of text = [])
  /\ (paragraphs_of text = [] ->
      chunk_by_semantic_similarity env text max_tokens similarity_threshold
      = Ok [[]]).
Proof.
  intros Hsk. split; [apply blank_text_no_paragraphs|].
  intros Hps. unfold chunk_by_semantic_similarity, similarity_body.
  rewrite Hsk, Hps. reflexivity.
Qed.

Lemma chunk_by_semantic_similarity_no_paragraphs_witness :
  chunk_by_semantic_similarity env_broken (py "  \n\n \n") 500 (3 # 10) = Ok [[]]
  /\ chunk_by_tokens env_broken (py "  \n\n \n") 500 = Raise (OtherError (py "broken")).
Proof.
  split; [|reflexivity].
  destruct (chunk_by_semantic_similarity_no_paragraphs env_broken (py "  \n\n \n")
              500 (3 # 10) eq_refl) as [Hblank Hres].
  apply Hres, Hblank. reflexivity.
Defined.

(** ** The metadata annotator *)

Lemma add_metadata_step_eq env sess filename chunking_method total acc i chunk :
  returns (word_tokenize env chunk) = true ->
  add_metadata_step env sess filename chunking_method total acc (i, chunk)
  = Ok (acc ++ [annotated_chunk env sess filename chunking_method total (i, chunk)]).
Proof.
  intros Hret. unfold add_metadata_step, annotated_chunk, token_total. cbn [fst snd].
  destruct (word_tokenize env chunk) as [words|]; [|discriminate].
  cbn [bind]. repeat rewrite <- app_assoc. reflexivity.
Qed.

Lemma add_metadata_loop env sess filename chunking_method total :
  forall (items : list (nat * str)) (acc : list str),
  forallb (fun ic => returns (word_tokenize env (snd ic))) items = true ->
  for_each (add_metadata_step env sess filename chunking_method total) items acc
  = Ok (acc ++ map (annotated_chunk env sess filename chunking_method total) items).
Proof.
  induction items as [|[i chunk] items IH]; intros acc Hret; cbn [for_each map].
  - rewrite app_nil_r. reflexivity.
  - cbn [forallb snd] in Hret. apply andb_true_iff in Hret. destruct Hret as [Hc Hret].
    rewrite add_metadata_step_eq by exact Hc.
    cbn [bind]. rewrite IH by exact Hret. rewrite <- app_assoc. reflexivity.
Qed.

Lemma nth_error_indexed_from {A : Type} : forall (xs : list A) a i x,
  nth_error xs i = Some x ->
  nth_error (combine (seq a (length xs)) xs) i = Some ((a + i)%nat, x).
Proof.
  induction xs as [|y xs IH]; intros a i x H; destruct i as [|i]; try discriminate.
  - cbn in H |- *. injection H as ->. rewrite Nat.add_0_r. reflexivity.
  - cbn [length seq combine nth_error] in H |- *. rewrite (IH (S a) i x H).
    f_equal. f_equal. lia.
Qed.

Lemma forallb_indexed env (chunks : list str) :
  forallb (fun c => returns (word_tokenize env c)) chunks = true ->
  forallb (fun ic : nat * str => returns (word_tokenize env (snd ic)))
    (indexed chunks) = true.
Proof.
  intros H. apply forallb_forall. intros [i c] Hic. cbn [snd].
  rewrite forallb_forall in H. apply H. unfold indexed in Hic.
  apply in_combine_r in Hic. exact Hic.
Qed.

(** C9. For every sequence of [total] chunks on which [word_tokenize]
    returns, the annotator returns [total] chunks in the same order; the
    chunk at position [i] (from 0) is a header that begins with
    [CHUNK: i+1/total], so that the indices run 1/total, 2/total, ...,
    total/total, then the other fields, a closing rule and an empty line,
    and after them the chunk itself unchanged; it is strictly longer than
    the chunk. *)
Theorem add_metadata_sequence (env : Env) (sess : Session) (chunks : list str)
  (filename chunking_method : str) :
  forallb (fun c => returns (word_tokenize env c)) chunks = true ->
  exists annotated : list str,
    add_metadata env sess chunks filename chunking_method = Ok annotated
    /\ length annotated = length chunks
    /\ forall i chunk,
         nth_error chunks i = Some chunk ->
         exists out,
           nth_error annotated i = Some out
           /\ out = py "---\nCHUNK: " ++ str_of_nat (i + 1) ++ py "/"
                    ++ str_of_nat (length chunks)
                    ++ py "\nSOURCE: " ++ filename
                    ++ py "\nCHUNKING_METHOD: " ++ chunking_method
                    ++ py "\nTOKENS: ~" ++ str_of_nat (token_total env chunk) ++ [nl]
                    ++ keywords_section env sess chunk
                    ++ py "---\n\n" ++ chunk
           /\ (length chunk < length out)%nat.
Proof.
  intros Hret.
  exists (map (annotated_chunk env sess filename chunking_method (length chunks))
            (indexed chunks)).
  split; [|split].
  - unfold add_metadata. rewrite add_metadata_loop by (apply forallb_indexed, Hret).
    reflexivity.
  - unfold indexed. rewrite length_map, length_combine, length_seq. lia.
  - intros i chunk Hi. eexists. split; [|split].
    + rewrite nth_error_map. unfold indexed.
      rewrite (nth_error_indexed_from chunks 0 i chunk Hi). reflexivity.
    + reflexivity.
    + unfold annotated_chunk. cbn [fst snd]. rewrite !length_app.
      change (length (py "---\nCHUNK: ")) with 11%nat. lia.
Qed.

Lemma add_metadata_sequence_witness :
  exists annotated : list str,
    add_metadata env_simple
      {| session_extract_keywords := Some true; session_max_keywords := Some 3 |}
      [py "alpha beta alpha"; py "gamma"] (py "f.txt") (py "Token-based")
    = Ok annotated
    /\ length annotated = 2%nat.
Proof.
  destruct (add_metadata_sequence env_simple
              {| session_extract_keywords := Some true; session_max_keywords := Some 3 |}
              [py "alpha beta alpha"; py "gamma"] (py "f.txt") (py "Token-based")
              eq_refl) as (annotated & H1 & H2 & _).
  exists annotated. split; [exact H1 | exact H2].
Defined.

(** ** The structure chunker loses the text of its sections *)

(** The split has stride four (text, three groups), so [parts[i+2]] is the
    third group, the line end of the heading, and the text that follows
    the heading, [parts[i+3]], is in no section. *)
Example re_split_heading_parts :
  re_split_heading true 0 (py "# A\n\ntext1\n\n# B\n\ntext2")
  = [[]; []; py "# A"; py "\n"; py "\ntext1\n"; py "\n"; py "# B"; py "\n";
     py "\ntext2"].
Proof. reflexivity. Qed.

(** C2 on the code: the sections of ["# A\n\ntext1\n\n# B\n\ntext2"] are
    the two heading lines alone; [text1] and [text2] are in no section and
    in no chunk, with any budget that lets the sections through. *)
Theorem chunk_by_structure_sections_without_content :
  sections_of (re_split_heading true 0 (py "# A\n\ntext1\n\n# B\n\ntext2"))
  = [py "# A\n"; py "# B\n"]
  /\ chunk_by_structure env_simple (py "# A\n\ntext1\n\n# B\n\ntext2") 500
     = Ok [py "# A\n"; py "# B\n"].
Proof. split; reflexivity. Qed.

(** C1 on the code: joined with the blank line between chunks, the
    chunks of the structure chunker hold [#A#B] of the content
    [#Atext1#Btext2]; text before the first heading is lost as well. *)
Theorem chunk_by_structure_loses_content :
  (exists chunks,
      chunk_by_structure env_simple (py "# A\n\ntext1\n\n# B\n\ntext2") 500 = Ok chunks
      /\ non_blank (join nlnl chunks) = py "#A#B"
      /\ non_blank (py "# A\n\ntext1\n\n# B\n\ntext2") = py "#Atext1#Btext2")
  /\ chunk_by_structure env_simple (py "intro\n\n# A\nbody") 500 = Ok [py "# A\n"].
Proof.
  split; [|reflexivity].
  eexists. split; [reflexivity|]. split; reflexivity.
Qed.

(** ** Degenerate input *)

Lemma chunk_by_tokens_no_sentences env text max_tokens :
  sentences_of env text = Ok [] -> chunk_by_tokens env text max_tokens = Ok [].
Proof. intros H. unfold chunk_by_tokens. rewrite H. reflexivity. Qed.

Lemma chunk_by_paragraphs_no_paragraphs text max_paragraphs :
  paragraphs_of text = [] -> chunk_by_paragraphs text max_paragraphs = [[]].
Proof. intros H. unfold chunk_by_paragraphs. rewrite H. reflexivity. Qed.

(** The paragraph chunker returns at least one chunk for every text. *)
Theorem chunk_by_paragraphs_nonempty (text : str) (max_paragraphs : Z) :
  1 <= max_paragraphs -> chunk_by_paragraphs text max_paragraphs <> [].
Proof.
  intros Hmax. rewrite chunk_by_paragraphs_groups by exact Hmax.
  destruct (paragraphs_of text) as [|p ps] eqn:Hps; [discriminate|].
  cbn [truthy].
  destruct (paragraph_groups_rule max_paragraphs (p :: ps) Hmax) as (Hc & _).
  destruct (paragraph_groups max_paragraphs (p :: ps)); [discriminate Hc | discriminate].
Qed.

Lemma chunk_by_paragraphs_nonempty_witness :
  chunk_by_paragraphs (py "a\n\nb") 1 <> [].
Proof. apply (chunk_by_paragraphs_nonempty (py "a\n\nb") 1). lia. Defined.

(** C3 on the code: the paragraph chunker returns the single empty chunk
    for a text without paragraphs, but the token-budget chunker has no such
    case. When the sentence splitter finds no sentence in the empty text
    its loop never runs and it returns no chunk; on its regular-expression
    fallback a text of two spaces comes back as one chunk of two spaces. *)
Theorem chunk_by_tokens_degenerate_input :
  chunk_by_paragraphs [] 5 = [[]]
  /\ chunk_by_paragraphs (py "  ") 5 = [[]]
  /\ sentences_of env_simple [] = Ok []
  /\ chunk_by_tokens env_simple [] 500 = Ok []
  /\ paragraphs_of (py "  ") = []
  /\ chunk_by_tokens env_no_nltk (py "  ") 500 = Ok [py "  "]
  /\ chunk_by_tokens env_no_nltk [] 500 = Ok [[]].
Proof. repeat split. Qed.

(** ** The keyword ranking *)

Lemma str_eqb_eq a b : str_eqb a b = true <-> a = b.
Proof.
  revert b. induction a as [|c a IH]; intros [|d b]; cbn [str_eqb];
    try (split; [discriminate | congruence]); [tauto|].
  rewrite andb_true_iff, N.eqb_eq, IH. split.
  - intros [-> ->]. reflexivity.
  - intros H. injection H as -> ->. split; reflexivity.
Qed.

Lemma str_eqb_refl a : str_eqb a a = true.
Proof. apply str_eqb_eq. reflexivity. Qed.

Lemma str_eqb_neq a b : str_eqb a b = false <-> a <> b.
Proof.
  rewrite <- str_eqb_eq. destruct (str_eqb a b); split; congruence.
Qed.

Lemma str_eqb_sym a b : str_eqb a b = str_eqb b a.
Proof.
  destruct (str_eqb a b) eqn:E1, (str_eqb b a) eqn:E2; try reflexivity.
  - apply str_eqb_eq in E1. subst. rewrite str_eqb_refl in E2. discriminate.
  - apply str_eqb_eq in E2. subst. rewrite str_eqb_refl in E1. discriminate.
Qed.

Lemma mem_In w l : mem w l = true <-> In w l.
Proof.
  unfold mem. rewrite existsb_exists. split.
  - intros (v & Hv & E). apply str_eqb_eq in E. subst. exact Hv.
  - intros H. exists w. split; [exact H | apply str_eqb_refl].
Qed.

Lemma keys_counter_add w c :
  keys (counter_add w c) = if mem w (keys c) then keys c else keys c ++ [w].
Proof.
  induction c as [|[k n] c IH]; [reflexivity|].
  cbn [counter_add keys map fst mem existsb]. fold (keys c). fold (mem w (keys c)).
  rewrite (str_eqb_sym w k). destruct (str_eqb k w) eqn:E; cbn [orb].
  - reflexivity.
  - cbn [map fst]. fold (keys (counter_add w c)). rewrite IH.
    destruct (mem w (keys c)); reflexivity.
Qed.

Lemma count_of_counter_add v w c :
  count_of v (counter_add w c)
  = if str_eqb v w then S (count_of v c) else count_of v c.
Proof.
  induction c as [|[k n] c IH]; cbn [counter_add count_of].
  - rewrite (str_eqb_sym w v). destruct (str_eqb v w); reflexivity.
  - destruct (str_eqb k w) eqn:Ekw; cbn [count_of].
    + apply str_eqb_eq in Ekw. subst k. rewrite (str_eqb_sym w v).
      destruct (str_eqb v w); reflexivity.
    + destruct (str_eqb k v) eqn:Ekv; [|exact IH].
      apply str_eqb_eq in Ekv. subst k. rewrite Ekw. reflexivity.
Qed.

Lemma occurrences_snoc v ws w :
  occurrences v (ws ++ [w])
  = if str_eqb v w then S (occurrences v ws) else occurrences v ws.
Proof.
  unfold occurrences. rewrite filter_app, length_app. cbn [filter].
  destruct (str_eqb v w); cbn [length]; lia.
Qed.

Lemma occurrences_pos v ws : In v ws <-> (0 < occurrences v ws)%nat.
Proof.
  unfold occurrences. induction ws as [|u ws IH]; cbn [filter In length]; [lia|].
  destruct (str_eqb v u) eqn:E; cbn [length].
  - apply str_eqb_eq in E. subst. split; [lia | auto].
  - apply str_eqb_neq in E. rewrite <- IH. split; [intros [H | H]; congruence | auto].
Qed.

Lemma first_index_lt v ws : In v ws -> (first_index v ws < length ws)%nat.
Proof.
  induction ws as [|u ws IH]; [intros []|]. cbn [first_index length].
  destruct (str_eqb v u) eqn:E; [lia|]. apply str_eqb_neq in E.
  intros [H | H]; [congruence|]. specialize (IH H). lia.
Qed.

Lemma first_index_snoc_in v ws w :
  In v ws -> first_index v (ws ++ [w]) = first_index v ws.
Proof.
  induction ws as [|u ws IH]; [intros []|]. cbn [first_index app].
  destruct (str_eqb v u) eqn:E; [reflexivity|]. apply str_eqb_neq in E.
  intros [H | H]; [congruence|]. rewrite (IH H). reflexivity.
Qed.

Lemma first_index_snoc_new ws w :
  ~ In w ws -> first_index w (ws ++ [w]) = length ws.
Proof.
  induction ws as [|u ws IH]; cbn [first_index app length In].
  - rewrite str_eqb_refl. reflexivity.
  - intros H. destruct (str_eqb w u) eqn:E.
    + apply str_eqb_eq in E. subst. tauto.
    + rewrite IH by tauto. reflexivity.
Qed.

Lemma Counter_snoc ws w : Counter (ws ++ [w]) = counter_add w (Counter ws).
Proof. unfold Counter. rewrite fold_left_app. reflexivity. Qed.

Lemma StronglySorted_snoc {A : Type} (R : A -> A -> Prop) l x :
  StronglySorted R l -> Forall (fun a => R a x) l -> StronglySorted R (l ++ [x]).
Proof.
  induction 1 as [|a l Hl IH Ha]; intros Hx; cbn [app].
  - repeat constructor.
  - inversion Hx; subst. constructor; [apply IH; assumption|].
    apply Forall_app. split; [exact Ha | constructor; [assumption | constructor]].
Qed.

Lemma StronglySorted_weaken {A : Type} (R R' : A -> A -> Prop) l :
  (forall a b, In a l -> In b l -> R a b -> R' a b) ->
  StronglySorted R l -> StronglySorted R' l.
Proof.
  intros Himp Hs. induction Hs as [|a l Hl IH Ha]; [constructor|].
  constructor.
  - apply IH. intros x y Hx Hy. apply Himp; right; assumption.
  - rewrite Forall_forall in Ha |- *. intros b Hb.
    apply Himp; [left; reflexivity | right; exact Hb | apply Ha, Hb].
Qed.

(** The counter after the tokens [ws]: its keys are the distinct tokens in
    the order in which they were first met, each with its number of
    occurrences. *)
Lemma Counter_keys ws :
  NoDup (keys (Counter ws))
  /\ (forall v, In v (keys (Counter ws)) <-> In v ws)
  /\ (forall v, count_of v (Counter ws) = occurrences v ws)
  /\ StronglySorted (met_before ws) (keys (Counter ws)).
Proof.
  induction ws as [|w ws (Hnd & Hin & Hcount & Hsorted)] using rev_ind.
  - repeat split; try constructor; intros [].
  - rewrite Counter_snoc, keys_counter_add.
    assert (Hcount' : forall v, count_of v (counter_add w (Counter ws))
                                = occurrences v (ws ++ [w])).
    { intros v. rewrite count_of_counter_add, occurrences_snoc, Hcount. reflexivity. }
    assert (Hold : StronglySorted (met_before (ws ++ [w])) (keys (Counter ws))).
    { apply (StronglySorted_weaken (met_before ws)); [|exact Hsorted].
      intros a b Ha Hb. unfold met_before.
      rewrite !first_index_snoc_in by (apply Hin; assumption). tauto. }
    destruct (mem w (keys (Counter ws))) eqn:Hmem.
    + apply mem_In in Hmem. repeat split; try assumption.
      * intros H. apply in_or_app. left. apply Hin, H.
      * intros H. apply in_app_or in H. destruct H as [H | [<- | []]];
          [apply Hin, H | exact Hmem].
    + assert (Hnew : ~ In w ws).
      { intros H. apply Hin in H. apply mem_In in H. congruence. }
      repeat split; try assumption.
      * apply NoDup_rev in Hnd. rewrite <- (rev_involutive (keys (Counter ws) ++ [w])).
        apply NoDup_rev. rewrite rev_app_distr. cbn [rev app].
        constructor; [|exact Hnd]. rewrite <- in_rev. intros H. apply Hnew, Hin, H.
      * intros H. apply in_app_or in H. apply in_or_app.
        destruct H as [H | H]; [left; apply Hin, H | right; exact H].
      * intros H. apply in_app_or in H. apply in_or_app.
        destruct H as [H | H]; [left; apply Hin, H | right; exact H].
      * apply StronglySorted_snoc; [exact Hold|].
        apply Forall_forall. intros a Ha. apply Hin in Ha. unfold met_before.
        rewrite (first_index_snoc_in a ws w Ha), (first_index_snoc_new ws w Hnew).
        apply first_index_lt, Ha.
Qed.

(** With distinct keys, every entry holds the count of its key. *)
Lemma entries_of_keys c :
  NoDup (keys c) -> c = map (fun k => (k, count_of k c)) (keys c).
Proof.
  induction c as [|[k n] c IH]; [reflexivity|].
  cbn [keys map fst]. fold (keys c). intros Hnd. inversion Hnd as [|? ? Hk Hnd']; subst.
  cbn [count_of]. rewrite str_eqb_refl. f_equal.
  rewrite (IH Hnd') at 1. apply map_ext_in. intros v Hv.
  destruct (str_eqb k v) eqn:E; [|reflexivity].
  apply str_eqb_eq in E. subst. contradiction.
Qed.

Lemma insert_desc_perm x l : Permutation (insert_desc x l) (x :: l).
Proof.
  induction l as [|y l IH]; cbn [insert_desc]; [reflexivity|].
  destruct (snd x <? snd y)%nat; [|reflexivity].
  rewrite IH. apply perm_swap.
Qed.

Lemma insert_desc_sorted T x l :
  StronglySorted (sorted_order T) l -> Forall (T x) l ->
  StronglySorted (sorted_order T) (insert_desc x l).
Proof.
  induction l as [|y l IH]; intros Hs Hx; cbn [insert_desc].
  - repeat constructor.
  - inversion Hs as [|? ? Hs' Hy]; subst. inversion Hx as [|? ? Hxy Hxl]; subst.
    destruct (Nat.ltb_spec (snd x) (snd y)) as [Hlt | Hge].
    + constructor; [apply IH; assumption|].
      apply (Permutation_Forall (x := x :: l)); [symmetry; apply insert_desc_perm|].
      constructor; [left; exact Hlt | exact Hy].
    + constructor; [exact Hs|]. constructor.
      * destruct (Nat.eq_dec (snd x) (snd y)) as [E | E];
          [right; split; assumption | left; lia].
      * rewrite Forall_forall in Hy, Hxl |- *. intros z Hz.
        specialize (Hy z Hz). specialize (Hxl z Hz). unfold sorted_order in *.
        destruct (Nat.eq_dec (snd x) (snd z)) as [E | E]; [right; tauto | left; lia].
Qed.

Lemma sorted_desc_perm l : Permutation (sorted_desc l) l.
Proof.
  induction l as [|x l IH]; cbn [sorted_desc fold_right]; [reflexivity|].
  fold (sorted_desc l). rewrite insert_desc_perm. constructor. exact IH.
Qed.

Lemma sorted_desc_sorted T l :
  StronglySorted T l -> StronglySorted (sorted_order T) (sorted_desc l).
Proof.
  induction 1 as [|x l Hl IH Hx]; cbn [sorted_desc fold_right]; [constructor|].
  fold (sorted_desc l). apply insert_desc_sorted; [exact IH|].
  apply (Permutation_Forall (x := l)); [symmetry; apply sorted_desc_perm | exact Hx].
Qed.

Lemma StronglySorted_map {A B : Type} (f : A -> B) (R : A -> A -> Prop)
  (R' : B -> B -> Prop) l :
  (forall a b, In a l -> In b l -> R a b -> R' (f a) (f b)) ->
  StronglySorted R l -> StronglySorted R' (map f l).
Proof.
  intros Himp Hs. induction Hs as [|a l Hl IH Ha]; cbn [map]; [constructor|].
  constructor.
  - apply IH. intros x y Hx Hy. apply Himp; right; assumption.
  - apply Forall_map. rewrite Forall_forall in Ha |- *. intros b Hb.
    apply Himp; [left; reflexivity | right; exact Hb | apply Ha, Hb].
Qed.

(** The words of the sorted counter are the ranking of the tokens. *)
Lemma sorted_counter_ranking ws :
  keyword_ranking ws (map fst (sorted_desc (Counter ws))).
Proof.
  destruct (Counter_keys ws) as (Hnd & Hin & Hcount & Hsorted).
  pose proof (entries_of_keys (Counter ws) Hnd) as Hentries.
  assert (Hperm : Permutation (map fst (sorted_desc (Counter ws))) (keys (Counter ws))).
  { apply Permutation_map, sorted_desc_perm. }
  assert (Hentry : forall a, In a (Counter ws) -> snd a = occurrences (fst a) ws).
  { intros a Ha. rewrite Hentries in Ha. apply in_map_iff in Ha.
    destruct Ha as (k & <- & _). cbn [fst snd]. apply Hcount. }
  split; [|split].
  - apply (Permutation_NoDup (l := keys (Counter ws))); [symmetry; exact Hperm | exact Hnd].
  - intros w. rewrite <- Hin. split; intros H.
    + apply (Permutation_in _ Hperm), H.
    + apply (Permutation_in _ (Permutation_sym Hperm)), H.
  - apply (StronglySorted_map fst
             (sorted_order (fun a b => met_before ws (fst a) (fst b)))).
    + intros a b Ha Hb Hab.
      apply (Permutation_in _ (sorted_desc_perm _)) in Ha, Hb.
      unfold sorted_order, met_before in Hab. unfold ranks_before.
      rewrite (Hentry a Ha), (Hentry b Hb) in Hab. exact Hab.
    + apply sorted_desc_sorted. unfold keys in Hsorted.
      clear - Hsorted. induction (Counter ws) as [|a c IH]; [constructor|].
      cbn [map] in Hsorted. inversion Hsorted as [|? ? Hs Ha]; subst.
      constructor; [apply IH, Hs|]. rewrite Forall_map in Ha. exact Ha.
Qed.

Lemma keep_word_spec stopwords w :
  keep_word (all_stops stopwords) w = true
  <-> ~ In w stopwords
      /\ (forall c, In c punctuation -> w <> [c])
      /\ ~ In w glyphs
      /\ (2 < length w)%nat.
Proof.
  unfold keep_word, all_stops.
  rewrite andb_true_iff, negb_true_iff, Nat.ltb_lt.
  assert (Hmem : mem w (stopwords ++ map (fun c => [c]) punctuation ++ glyphs) = false
                 <-> ~ In w (stopwords ++ map (fun c => [c]) punctuation ++ glyphs)).
  { rewrite <- mem_In. destruct (mem w _); split; congruence. }
  rewrite Hmem, !in_app_iff, in_map_iff. split.
  - intros [Hn Hlen]. repeat split; try assumption.
    + intros H. apply Hn. left. exact H.
    + intros c Hc ->. apply Hn. right. left. exists c. split; [reflexivity | exact Hc].
    + intros H. apply Hn. right. right. exact H.
  - intros (H1 & H2 & H3 & Hlen). split; [|exact Hlen].
    intros [H | [(c & <- & Hc) | H]]; [tauto | apply (H2 c Hc); reflexivity | tauto].
Qed.

(** C8. For every text and every [max_keywords >= 0], when the stop words
    load and the tokenizer returns, the extractor tokenizes the lowered
    text, keeps the tokens that are no stop word, no punctuation character,
    none of the glyphs and longer than two characters, and returns the
    first [max_keywords] words of their ranking: the distinct kept words,
    the most frequent first and, among equally frequent ones, the one met
    first. It returns no word for [max_keywords = 0] and when no token is
    kept. *)
Theorem extract_keywords_most_frequent (env : Env) (text : str) (max_keywords : Z)
  (stopwords words : list str) :
  0 <= max_keywords ->
  load_stopwords env = Ok stopwords ->
  word_tokenize env (lower env text) = Ok words ->
  exists ranking : list str,
    keyword_ranking (filter (keep_word (all_stops stopwords)) words) ranking
    /\ extract_keywords env text max_keywords
       = firstn (Z.to_nat max_keywords) ranking
    /\ (forall w, In w ranking <->
                  In w words
                  /\ ~ In w stopwords
                  /\ (forall c, In c punctuation -> w <> [c])
                  /\ ~ In w glyphs
                  /\ (2 < length w)%nat)
    /\ (max_keywords = 0 -> extract_keywords env text max_keywords = [])
    /\ (filter (keep_word (all_stops stopwords)) words = [] ->
        extract_keywords env text max_keywords = []).
Proof.
  intros _ Hstops Hwords.
  set (kept := filter (keep_word (all_stops stopwords)) words).
  assert (Hrun : extract_keywords env text max_keywords
                 = firstn (Z.to_nat max_keywords) (map fst (sorted_desc (Counter kept)))).
  { unfold extract_keywords. rewrite Hstops. cbn [bind]. rewrite Hwords. cbn [bind].
    unfold most_common. rewrite firstn_map. reflexivity. }
  exists (map fst (sorted_desc (Counter kept))).
  pose proof (sorted_counter_ranking kept) as Hrank.
  split; [exact Hrank|]. split; [exact Hrun|]. split; [|split].
  - intros w. destruct Hrank as (_ & Hin & _). rewrite Hin. unfold kept.
    rewrite filter_In, keep_word_spec. tauto.
  - intros ->. rewrite Hrun. reflexivity.
  - intros Hnone. rewrite Hrun. fold kept in Hnone. rewrite Hnone.
    cbn. apply firstn_nil.
Qed.

Lemma extract_keywords_most_frequent_witness :
  exists ranking : list str,
    keyword_ranking
      (filter (keep_word (all_stops [py "the"; py "and"; py "with"]))
         (split_ws (map ascii_lower (py "The cat and the dog; dog with Cat, bird bird BIRD"))))
      ranking
    /\ extract_keywords env_simple
         (py "The cat and the dog; dog with Cat, bird bird BIRD") 2
       = firstn 2 ranking.
Proof.
  destruct (extract_keywords_most_frequent env_simple
              (py "The cat and the dog; dog with Cat, bird bird BIRD") 2
              [py "the"; py "and"; py "with"]
              (split_ws (map ascii_lower
                           (py "The cat and the dog; dog with Cat, bird bird BIRD"))))
    as (ranking & H1 & H2 & _).
  - lia.
  - reflexivity.
  - reflexivity.
  - exists ranking. split; [exact H1 | exact H2].
Defined.

(** ** What the paragraph and the token-budget chunker keep of the text *)

Lemma non_blank_app a b : non_blank (a ++ b) = non_blank a ++ non_blank b.
Proof. apply filter_app. Qed.

Lemma non_blank_join sep l :
  non_blank sep = [] -> non_blank (join sep l) = concat (map non_blank l).
Proof.
  intros Hsep. induction l as [|x l IH]; [reflexivity|].
  destruct l as [|y l].
  - cbn [join map concat]. rewrite app_nil_r. reflexivity.
  - change (join sep (x :: y :: l)) with (x ++ sep ++ join sep (y :: l)).
    rewrite !non_blank_app, Hsep, IH. reflexivity.
Qed.

Lemma non_blank_joined_groups sep (groups : list (list str)) :
  non_blank sep = [] ->
  non_blank (join sep (map (join sep) groups))
  = concat (map non_blank (concat groups)).
Proof.
  intros Hsep. rewrite (non_blank_join sep _ Hsep), map_map.
  induction groups as [|g groups IH]; [reflexivity|].
  cbn [map concat]. rewrite map_app, concat_app, IH, (non_blank_join sep g Hsep).
  reflexivity.
Qed.

Lemma non_blank_cons_head c pieces :
  concat (map non_blank (cons_head c pieces))
  = non_blank [c] ++ concat (map non_blank pieces).
Proof.
  destruct pieces as [|p ps]; cbn [cons_head map concat].
  - reflexivity.
  - change (c :: p) with ([c] ++ p). rewrite non_blank_app, app_assoc. reflexivity.
Qed.

Lemma non_blank_split_nlnl : forall n s, (length s <= n)%nat ->
  concat (map non_blank (split_nlnl s)) = non_blank s.
Proof.
  induction n as [|n IH]; intros s Hlen.
  - destruct s; [reflexivity | simpl in Hlen; lia].
  - destruct s as [|c s]; [reflexivity|]. simpl in Hlen.
    assert (Hhead : concat (map non_blank (cons_head c (split_nlnl s)))
                    = non_blank (c :: s)).
    { rewrite non_blank_cons_head, (IH s) by lia.
      change (c :: s) with ([c] ++ s). rewrite non_blank_app. reflexivity. }
    cbn [split_nlnl]. destruct s as [|d s']; [exact Hhead|].
    destruct ((c =? nl)%N && (d =? nl)%N) eqn:E; [|exact Hhead].
    apply andb_true_iff in E. destruct E as [Ec Ed].
    apply N.eqb_eq in Ec, Ed. subst c d. simpl in Hlen.
    cbn [map concat]. rewrite (IH s') by lia. reflexivity.
Qed.

Lemma dropwhile_nil f s : dropwhile f s = [] -> forallb f s = true.
Proof.
  induction s as [|c s IH]; [reflexivity|]. cbn [dropwhile forallb].
  destruct (f c); [exact IH | discriminate].
Qed.

Lemma dropwhile_head f s c r : dropwhile f s = c :: r -> f c = false.
Proof.
  induction s as [|d s IH]; [discriminate|]. cbn [dropwhile].
  destruct (f d) eqn:E; [exact IH|]. intros H. injection H as -> _. exact E.
Qed.

Lemma strip_nil_blank p : strip p = [] -> non_blank p = [].
Proof.
  unfold strip. intros H.
  assert (Hrev : dropwhile isspace (rev (dropwhile isspace p)) = []).
  { rewrite <- (rev_involutive (dropwhile isspace (rev (dropwhile isspace p)))), H.
    reflexivity. }
  apply dropwhile_nil in Hrev.
  assert (Hq : dropwhile isspace p = []).
  { destruct (dropwhile isspace p) as [|c r] eqn:E; [reflexivity|].
    pose proof (dropwhile_head _ _ _ _ E) as Hc.
    rewrite forallb_forall in Hrev.
    assert (Hin : In c (rev (c :: r))) by (apply -> in_rev; left; reflexivity).
    rewrite (Hrev c Hin) in Hc. discriminate. }
  apply dropwhile_nil in Hq. clear H Hrev. unfold non_blank.
  induction p as [|c p IH]; [reflexivity|]. cbn [forallb] in Hq.
  apply andb_true_iff in Hq. destruct Hq as [Hc Hp].
  cbn [filter]. rewrite Hc. cbn [negb]. apply IH, Hp.
Qed.

Lemma non_blank_paragraphs text :
  concat (map non_blank (paragraphs_of text)) = non_blank text.
Proof.
  rewrite <- (non_blank_split_nlnl (length text) text (le_n _)).
  unfold paragraphs_of. induction (split_nlnl text) as [|p ps IH]; [reflexivity|].
  cbn [filter map concat]. destruct (strip p) as [|c r] eqn:E; cbn [truthy].
  - rewrite (strip_nil_blank p E), IH. reflexivity.
  - cbn [map concat]. rewrite IH. reflexivity.
Qed.

(** The paragraph chunker keeps the content of the text: joined by blank
    lines, its chunks have the non-blank characters of the text, in order. *)
Theorem chunk_by_paragraphs_content (text : str) (max_paragraphs : Z) :
  1 <= max_paragraphs ->
  non_blank (join nlnl (chunk_by_paragraphs text max_paragraphs)) = non_blank text.
Proof.
  intros Hmax. rewrite chunk_by_paragraphs_groups by exact Hmax.
  rewrite <- (non_blank_paragraphs text).
  destruct (paragraphs_of text) as [|p ps] eqn:Hps; [reflexivity|]. cbn [truthy].
  rewrite non_blank_joined_groups by reflexivity.
  destruct (paragraph_groups_rule max_paragraphs (p :: ps) Hmax) as (Hc & _).
  rewrite Hc. reflexivity.
Qed.

Lemma chunk_by_paragraphs_content_witness :
  non_blank (join nlnl (chunk_by_paragraphs (py "a b\n\n\n\n \n\n# c\n\nd") 2))
  = non_blank (py "a b\n\n\n\n \n\n# c\n\nd").
Proof.
  apply (chunk_by_paragraphs_content (py "a b\n\n\n\n \n\n# c\n\nd") 2). lia.
Defined.

Lemma non_blank_re_split_sentences : forall s after_end in_sep,
  concat (map non_blank (re_split_sentences after_end in_sep s)) = non_blank s.
Proof.
  induction s as [|c s IH]; intros after_end in_sep; [reflexivity|].
  cbn [re_split_sentences]. change (c :: s) with ([c] ++ s).
  rewrite non_blank_app. unfold non_blank at 2. cbn [filter].
  destruct (isspace c) eqn:Ec; cbn [negb app].
  - destruct in_sep; [apply IH|]. destruct after_end.
    + cbn [map concat]. rewrite IH. reflexivity.
    + rewrite non_blank_cons_head, IH. unfold non_blank at 1. cbn [filter].
      rewrite Ec. reflexivity.
  - rewrite non_blank_cons_head, IH. unfold non_blank at 1. cbn [filter].
    rewrite Ec. reflexivity.
Qed.

(** The token-budget chunker keeps the content of the text whenever the
    sentences it is given do, as those of its regular-expression fallback
    do: joined by spaces, its chunks have the non-blank characters of the
    text, in order. *)
Theorem chunk_by_tokens_content (env : Env) (text : str) (max_tokens : Z)
  (sentences : list str) :
  sentences_of env text = Ok sentences ->
  concat (map non_blank sentences) = non_blank text ->
  exists chunks,
    chunk_by_tokens env text max_tokens = Ok chunks
    /\ non_blank (join [space] chunks) = non_blank text.
Proof.
  intros Hs Hkeep. exists (pack_sentences env max_tokens sentences).
  split; [unfold chunk_by_tokens; rewrite Hs; reflexivity|].
  rewrite pack_sentences_groups, non_blank_joined_groups by reflexivity.
  destruct (sentence_groups_rule env max_tokens sentences) as (Hc & _).
  rewrite Hc. exact Hkeep.
Qed.

Lemma chunk_by_tokens_content_witness :
  exists chunks,
    chunk_by_tokens env_no_nltk (py "One two.  Three!\nFour five? six") 3 = Ok chunks
    /\ non_blank (join [space] chunks)
       = non_blank (py "One two.  Three!\nFour five? six").
Proof.
  apply (chunk_by_tokens_content env_no_nltk (py "One two.  Three!\nFour five? six") 3
           (re_split_sentences false false (py "One two.  Three!\nFour five? six"))).
  - reflexivity.
  - apply non_blank_re_split_sentences.
Defined.


(** ** When a library call raises *)

(** The keyword extractor catches what the stop-word lookup or the
    tokenizer raises and returns the message as its only keyword, for
    every [max_keywords]. *)
Theorem extract_keywords_sentinel (env : Env) (text : str) (max_keywords : Z)
  (e : exn) :
  load_stopwords env = Raise e
  \/ (returns (load_stopwords env) = true
      /\ word_tokenize env (lower env text) = Raise e) ->
  extract_keywords env text max_keywords
  = [py "Error extracting keywords: " ++ exn_msg e].
Proof.
  unfold extract_keywords. intros [H | [Hs Hw]].
  - rewrite H. reflexivity.
  - destruct (load_stopwords env); [|discriminate]. cbn [bind].
    rewrite Hw. reflexivity.
Qed.

Lemma extract_keywords_sentinel_witness :
  extract_keywords env_no_nltk (py "some text") 0
  = [py "Error extracting keywords: " ++ exn_msg (LookupError (py "stopwords"))].
Proof.
  apply (extract_keywords_sentinel env_no_nltk (py "some text") 0).
  left. reflexivity.
Defined.

(** The annotator has no handler around [word_tokenize]: what it raises on
    the first chunk leaves [add_metadata]. *)
Theorem add_metadata_raises (env : Env) (sess : Session) (chunk : str)
  (chunks : list str) (filename chunking_method : str) (e : exn) :
  word_tokenize env chunk = Raise e ->
  add_metadata env sess (chunk :: chunks) filename chunking_method = Raise e.
Proof.
  intros H. unfold add_metadata, indexed. cbn [length seq combine for_each].
  unfold add_metadata_step at 1. rewrite H. reflexivity.
Qed.

Lemma add_metadata_raises_witness :
  add_metadata env_no_nltk
    {| session_extract_keywords := None; session_max_keywords := None |}
    [py "a"; py "b"] (py "f.txt") (py "Token-based")
  = Raise (LookupError (py "punkt")).
Proof.
  apply (add_metadata_raises env_no_nltk). reflexivity.
Defined.

(** ** A text without headings goes to the paragraph chunker *)

Lemma heading_body_no_hash t :
  match t with c :: _ => is_hash c = false | [] => True end ->
  heading_body t = None.
Proof.
  unfold heading_body. destruct t as [|c t]; [reflexivity|].
  intros H. cbn [span]. rewrite H. reflexivity.
Qed.

Lemma re_split_heading_no_hash : forall s line_start,
  forallb (fun c => negb (is_hash c)) s = true ->
  re_split_heading line_start 0 s = [s].
Proof.
  induction s as [|c s IH]; intros line_start Hs; [reflexivity|].
  cbn [forallb] in Hs. apply andb_true_iff in Hs. destruct Hs as [Hc Hs].
  apply negb_true_iff in Hc.
  assert (Hnext : heading_body s = None).
  { apply heading_body_no_hash. destruct s as [|d s']; [exact I|].
    cbn [forallb] in Hs. apply andb_true_iff in Hs. destruct Hs as [Hd _].
    apply negb_true_iff in Hd. exact Hd. }
  assert (Hhere : heading_body (c :: s) = None)
    by (apply heading_body_no_hash; exact Hc).
  cbn [re_split_heading]. unfold heading_match. rewrite Hnext, Hhere.
  assert (Hnone : (if (c =? nl)%N then None
                   else if line_start then None else None)
                  = @None (str * str * str)).
  { destruct (c =? nl)%N, line_start; reflexivity. }
  rewrite Hnone, (IH _ Hs). reflexivity.
Qed.

(** For a text without a hash the structure chunker is the paragraph
    chunker with [max(3, max_tokens // 100)] paragraphs per chunk. *)
Theorem chunk_by_structure_no_heading (env : Env) (text : str) (max_tokens : Z) :
  forallb (fun c => negb (is_hash c)) text = true ->
  chunk_by_structure env text max_tokens
  = Ok (chunk_by_paragraphs text (Z.max 3 (max_tokens / 100))).
Proof.
  intros H. unfold chunk_by_structure.
  rewrite (re_split_heading_no_hash text true H). reflexivity.
Qed.

Lemma chunk_by_structure_no_heading_witness :
  chunk_by_structure env_broken (py "no headings here\n\nsecond") 500
  = Ok (chunk_by_paragraphs (py "no headings here\n\nsecond") (Z.max 3 (500 / 100))).
Proof.
  apply (chunk_by_structure_no_heading env_broken (py "no headings here\n\nsecond") 500).
  reflexivity.
Defined.

(** ** Joins of joins *)

Lemma join_cons sep x (l : list str) :
  l <> [] -> join sep (x :: l) = x ++ sep ++ join sep l.
Proof. destruct l; [congruence | reflexivity]. Qed.

Lemma join_app sep (l1 l2 : list str) :
  l1 <> [] -> l2 <> [] ->
  join sep (l1 ++ l2) = join sep l1 ++ sep ++ join sep l2.
Proof.
  intros H1 H2. induction l1 as [|x l1 IH]; [congruence|].
  destruct l1 as [|y l1].
  - cbn [app]. rewrite join_cons by exact H2. reflexivity.
  - change ((x :: y :: l1) ++ l2) with (x :: (y :: l1) ++ l2).
    rewrite join_cons by discriminate. rewrite IH by discriminate.
    rewrite (join_cons sep x (y :: l1)) by discriminate.
    rewrite <- !app_assoc. reflexivity.
Qed.

Lemma concat_nonempty {A : Type} (gs : list (list A)) :
  gs <> [] -> Forall (fun g => g <> []) gs -> concat gs <> [].
Proof.
  intros Hgs Hne. destruct gs as [|g gs]; [congruence|].
  inversion Hne as [|? ? Hg _]; subst. cbn [concat].
  destruct g; [congruence | discriminate].
Qed.

(** Joining chunks that are themselves joins of non-empty groups is joining
    the items. *)
Lemma join_flatten sep (groups : list (list str)) :
  Forall (fun g => g <> []) groups ->
  join sep (map (join sep) groups) = join sep (concat groups).
Proof.
  induction groups as [|g gs IH]; intros Hne; [reflexivity|].
  inversion Hne as [|? ? Hg Hgs]; subst. cbn [map concat].
  destruct gs as [|g' gs].
  - cbn [map concat join]. rewrite app_nil_r. reflexivity.
  - rewrite join_cons by discriminate. rewrite (IH Hgs).
    rewrite join_app; [reflexivity | exact Hg |].
    apply concat_nonempty; [discriminate | exact Hgs].
Qed.

(** ** Groupings with no cut, and with a cut at every item *)

Section GreedyShapes.

Variables X S : Type.
Variable start : X -> S.
Variable extend : S -> X -> S.
Variable cut : S -> X -> bool.

Lemma greedy_grouping_single xs gs :
  greedy_grouping start extend cut xs gs ->
  xs <> [] ->
  (forall x0 pre x post,
      xs = x0 :: pre ++ x :: post -> cut (state_of start extend x0 pre) x = false) ->
  gs = [xs].
Proof.
  intros (Hc & Hne & _ & Hadj) Hxs Hnocut.
  destruct gs as [|g gs]; [cbn in Hc; congruence|].
  destruct gs as [|g' gs].
  - cbn [concat] in Hc. rewrite app_nil_r in Hc. subst. reflexivity.
  - exfalso. inversion Hne as [|? ? Hg Hne']; subst.
    inversion Hne' as [|? ? Hg' _]; subst.
    destruct g as [|x0 g]; [congruence|]. destruct g' as [|x g']; [congruence|].
    specialize (Hadj [] x0 g x g' gs eq_refl).
    rewrite (Hnocut x0 g x (g' ++ concat gs)) in Hadj; [discriminate|].
    reflexivity.
Qed.

Lemma greedy_grouping_singletons xs gs :
  greedy_grouping start extend cut xs gs ->
  (forall x0 pre x,
      In x0 xs -> In x xs -> cut (state_of start extend x0 pre) x = true) ->
  gs = map (fun x => [x]) xs.
Proof.
  intros (Hc & Hne & Hin & _) Hcut.
  assert (Hsingle : forall g, In g gs -> exists x, g = [x]).
  { intros g Hg. rewrite Forall_forall in Hne. specialize (Hne g Hg).
    destruct g as [|x0 l]; [congruence|]. destruct l as [|x post]; [eauto|].
    exfalso. specialize (Hin x0 [] x post Hg).
    rewrite Hcut in Hin; [discriminate| |]; rewrite <- Hc; apply in_concat;
      exists (x0 :: x :: post); (split; [exact Hg|]);
      [left; reflexivity | right; left; reflexivity]. }
  clear Hne Hin Hcut. subst xs.
  induction gs as [|g gs IH]; [reflexivity|].
  destruct (Hsingle g (or_introl eq_refl)) as [x ->].
  cbn [concat map app]. f_equal. apply IH. intros g' Hg'. apply Hsingle. right. exact Hg'.
Qed.

End GreedyShapes.

(** ** What the processing loop writes without metadata *)

Lemma chunk_by_paragraphs_joined text max_paragraphs :
  1 <= max_paragraphs ->
  join nlnl (chunk_by_paragraphs text max_paragraphs)
  = join nlnl (paragraphs_of text).
Proof.
  intros Hmax. rewrite chunk_by_paragraphs_groups by exact Hmax.
  destruct (paragraphs_of text) as [|p ps] eqn:Hps; [reflexivity|]. cbn [truthy].
  destruct (paragraph_groups_rule max_paragraphs (p :: ps) Hmax) as (Hc & Hsize & _).
  rewrite join_flatten, Hc; [reflexivity|].
  apply Forall_forall. intros g Hg. apply Hsize, Hg.
Qed.

(** With Smart Paragraph chunking and no metadata, the processed content
    of a file is its non-empty paragraphs joined by blank lines, whatever
    the number of paragraphs per chunk: the chunk boundaries leave no
    trace. *)
Theorem processed_content_smart_paragraph (env : Env) (sess : Session)
  (opts : Options) (float_str : Q -> str) (name content : str) :
  chunking_enabled opts = true ->
  chunking_method opts = SmartParagraph ->
  add_metadata_enabled opts = false ->
  1 <= paragraphs_per_chunk opts ->
  processed_content env sess opts float_str name content
  = Ok (join nlnl (paragraphs_of content)).
Proof.
  intros Hon Hm Hmeta Hmax. unfold processed_content, chunks_of.
  rewrite Hon, Hm, Hmeta. cbn [bind fst snd].
  rewrite chunk_by_paragraphs_joined by exact Hmax. reflexivity.
Qed.

Lemma processed_content_smart_paragraph_witness :
  processed_content env_broken
    {| session_extract_keywords := None; session_max_keywords := None |}
    {| chunking_enabled := true; chunking_method := SmartParagraph;
       paragraphs_per_chunk := 2; tokens_per_chunk := 500;
       similarity_threshold := None; add_metadata_enabled := false |}
    (fun _ => []) (py "f.txt") (py "a\n\n\n\n \n\nb\n\nc\n\n# d")
  = Ok (join nlnl (paragraphs_of (py "a\n\n\n\n \n\nb\n\nc\n\n# d"))).
Proof.
  apply (processed_content_smart_paragraph env_broken); [reflexivity .. | cbn; lia].
Defined.

Lemma map_snd_indexed_from {A : Type} (l : list A) : forall a,
  map snd (combine (seq a (length l)) l) = l.
Proof.
  induction l as [|x l IH]; intros a; [reflexivity|].
  cbn [length seq combine map snd]. rewrite IH. reflexivity.
Qed.

Lemma map_snd_indexed (l : list str) : map snd (indexed l) = l.
Proof. apply map_snd_indexed_from. Qed.

(** On the path without fallback the chunks of the similarity chunker are
    the rendered groups of its pass. *)
Lemma chunk_by_semantic_similarity_groups env text max_tokens thr sim :
  has_sklearn env = true ->
  (4 <= length (paragraphs_of text))%nat ->
  tfidf_similarities env (paragraphs_of text) = Ok sim ->
  forallb (fun p => returns (word_tokenize env p)) (paragraphs_of text) = true ->
  chunk_by_semantic_similarity env text max_tokens thr
  = Ok (map render (similarity_groups env max_tokens thr sim (paragraphs_of text))).
Proof.
  intros Hsk Hlen Htf Hret.
  unfold chunk_by_semantic_similarity, similarity_body, similarity_groups.
  rewrite Hsk. cbn [negb]. cbv zeta.
  destruct (paragraphs_of text) as [|p0 rest] eqn:Hps; [simpl in Hlen; lia|].
  cbn [truthy negb]. rewrite Htf.
  destruct (Nat.leb_spec (length (p0 :: rest)) 3) as [H | _]; [lia|].
  cbn [nth]. cbn [forallb] in Hret. apply andb_true_iff in Hret.
  destruct Hret as [H0 Hret].
  destruct (word_tokenize env p0) as [words|] eqn:Hw; [|discriminate].
  cbn [bind]. rewrite py_range_1.
  replace (length (p0 :: rest) - 1)%nat with (length rest) by (simpl; lia).
  destruct (similarity_loop env max_tokens thr (p0 :: rest)
              sim rest [p0] [] [(0%nat, p0)] (Z.of_nat (length words)) 0%nat
              eq_refl Hret) as (st & H1 & H2 & H3); [discriminate|].
  cbn [length map snd] in H1. rewrite H1. cbn [bind try_except].
  rewrite H2, H3. cbn [app length].
  unfold indexed. cbn [length seq combine greedy_groups].
  replace (sim_start env (0%nat, p0)) with (0%nat, Z.of_nat (length words))
    by (unfold sim_start, word_count; cbn [fst snd]; rewrite Hw; reflexivity).
  reflexivity.
Qed.

Lemma render_flatten (groups : list (list (nat * str))) :
  Forall (fun g => g <> []) groups ->
  join nlnl (map render groups) = join nlnl (map snd (concat groups)).
Proof.
  intros Hne. unfold render. rewrite <- (map_map (map snd) (join nlnl)).
  rewrite join_flatten.
  - rewrite concat_map. reflexivity.
  - apply Forall_map. apply Forall_impl with (2 := Hne).
    intros g Hg. destruct g; [congruence | discriminate].
Qed.

(** With Semantic chunking on its path without fallback and no metadata,
    the processed content of a file is its non-empty paragraphs joined by
    blank lines, whatever the token budget and the similarity threshold. *)
Theorem processed_content_semantic (env : Env) (sess : Session)
  (opts : Options) (float_str : Q -> str) (name content : str)
  (sim : nat -> nat -> Q) :
  chunking_enabled opts = true ->
  chunking_method opts = Semantic ->
  add_metadata_enabled opts = false ->
  has_sklearn env = true ->
  (4 <= length (paragraphs_of content))%nat ->
  tfidf_similarities env (paragraphs_of content) = Ok sim ->
  forallb (fun p => returns (word_tokenize env p)) (paragraphs_of content) = true ->
  processed_content env sess opts float_str name content
  = Ok (join nlnl (paragraphs_of content)).
Proof.
  intros Hon Hm Hmeta Hsk Hlen Htf Hret. unfold processed_content, chunks_of.
  rewrite Hon, Hm, Hmeta.
  rewrite (chunk_by_semantic_similarity_groups env content _ _ sim Hsk Hlen Htf Hret).
  cbn [bind fst snd].
  destruct (similarity_groups_rule env (tokens_per_chunk opts)
              match similarity_threshold opts with Some s => s | None => (3 # 10)%Q end
              sim (paragraphs_of content)) as (Hc & Hne & _).
  rewrite render_flatten, Hc, map_snd_indexed; [reflexivity|].
  apply Forall_forall. exact Hne.
Qed.

Lemma processed_content_semantic_witness :
  processed_content env_simple
    {| session_extract_keywords := None; session_max_keywords := None |}
    {| chunking_enabled := true; chunking_method := Semantic;
       paragraphs_per_chunk := 2; tokens_per_chunk := 4;
       similarity_threshold := None; add_metadata_enabled := false |}
    (fun _ => []) (py "f.txt") (py "a b\n\nc d\n\n\n\ne f\n\ng h\n\ni")
  = Ok (join nlnl (paragraphs_of (py "a b\n\nc d\n\n\n\ne f\n\ng h\n\ni"))).
Proof.
  apply (processed_content_semantic env_simple _ _ _ _ _
           (fun i j => (1 # Pos.of_succ_nat (Nat.max i j - Nat.min i j))%Q));
    try reflexivity.
  vm_compute. lia.
Defined.

(** ** Thresholds and budgets at their extremes *)






Lemma total_words_nonneg env g : 0 <= total_words env g.
Proof.
  induction g as [|p g IH]; [reflexivity|]. rewrite total_words_cons.
  assert (0 <= word_count env p) by (unfold word_count; destruct (word_tokenize env p); lia).
  lia.
Qed.

Lemma total_words_app env g1 g2 :
  total_words env (g1 ++ g2) = total_words env g1 + total_words env g2.
Proof.
  induction g1 as [|p g1 IH]; [reflexivity|].
  rewrite <- app_comm_cons, !total_words_cons, IH. lia.
Qed.

(** On the path without fallback, when every later paragraph is more
    similar to the first one than the threshold and the whole text is
    within the token budget, the text is one chunk: its paragraphs joined
    by blank lines. *)
Theorem chunk_by_semantic_similarity_one_chunk (env : Env) (text : str)
  (max_tokens : Z) (thr : Q) (sim : nat -> nat -> Q) :
  has_sklearn env = true ->
  (4 <= length (paragraphs_of text))%nat ->
  tfidf_similarities env (paragraphs_of text) = Ok sim ->
  forallb (fun p => returns (word_tokenize env p)) (paragraphs_of text) = true ->
  (forall j, (0 < j < length (paragraphs_of text))%nat -> (thr < sim 0%nat j)%Q) ->
  total_words env (paragraphs_of text) <= max_tokens ->
  chunk_by_semantic_similarity env text max_tokens thr
  = Ok [join nlnl (paragraphs_of text)].
Proof.
  intros Hsk Hlen Htf Hret Hhigh Hbudget.
  rewrite (chunk_by_semantic_similarity_groups env text _ _ sim Hsk Hlen Htf Hret).
  unfold similarity_groups.
  rewrite (greedy_grouping_single _ _ (sim_start env) (sim_extend env)
             (sim_cut env max_tokens thr sim) (indexed (paragraphs_of text)) _
             (greedy_groups_grouping _ _ _ _ _ _)).
  - cbn [map]. unfold render. rewrite map_snd_indexed. reflexivity.
  - destruct (paragraphs_of text); [simpl in Hlen; lia | discriminate].
  - intros [a pa] pre [i p] post Heq. rewrite sim_state_of.
    unfold sim_cut. apply negb_false_iff. apply sim_merge_spec.
    assert (Hbound : a = 0%nat /\ (0 < i < length (paragraphs_of text))%nat).
    { unfold indexed in Heq. destruct (paragraphs_of text) as [|p0 ps]; [discriminate|].
      cbn [length seq combine] in Heq. injection Heq as <- _ Hrest. split; [reflexivity|].
      assert (Hin : In (i, p) (combine (seq 1 (length ps)) ps))
        by (rewrite Hrest; apply in_or_app; right; left; reflexivity).
      apply in_combine_l, in_seq in Hin. cbn [length]. lia. }
    destruct Hbound as [-> Hi]. split; [apply Hhigh, Hi|].
    rewrite <- (map_snd_indexed (paragraphs_of text)), Heq in Hbudget.
    cbn [map snd] in Hbudget. rewrite total_words_cons, map_app, total_words_app in Hbudget.
    cbn [map snd] in Hbudget. rewrite total_words_cons in Hbudget.
    pose proof (total_words_nonneg env (map snd post)). lia.
Qed.

Lemma chunk_by_semantic_similarity_one_chunk_witness :
  chunk_by_semantic_similarity env_simple (py "a\n\nb\n\nc\n\nd") 100 (1 # 10)
  = Ok [join nlnl (paragraphs_of (py "a\n\nb\n\nc\n\nd"))].
Proof.
  apply (chunk_by_semantic_similarity_one_chunk env_simple _ _ _
           (fun i j => (1 # Pos.of_succ_nat (Nat.max i j - Nat.min i j))%Q)).
  - reflexivity.
  - vm_compute. lia.
  - reflexivity.
  - reflexivity.
  - intros j Hj. change (length (paragraphs_of (py "a\n\nb\n\nc\n\nd"))) with 4%nat in Hj.
    assert (Hc : j = 1%nat \/ j = 2%nat \/ j = 3%nat) by lia.
    destruct Hc as [-> | [-> | ->]]; reflexivity.
  - vm_compute. discriminate.
Defined.

(** A text whose sentences fit the token budget together is one chunk:
    its sentences joined by single spaces. *)
Theorem chunk_by_tokens_one_chunk (env : Env) (text : str) (max_tokens : Z)
  (sentences : list str) :
  sentences_of env text = Ok sentences ->
  sentences <> [] ->
  total_tokens env sentences <= max_tokens ->
  chunk_by_tokens env text max_tokens = Ok [join [space] sentences].
Proof.
  intros Hs Hne Hbudget. unfold chunk_by_tokens. rewrite Hs. cbn [bind].
  rewrite pack_sentences_groups. unfold sentence_groups.
  rewrite (greedy_grouping_single _ _ (token_start env) (token_extend env)
             (token_cut env max_tokens) sentences _
             (greedy_groups_grouping _ _ _ _ _ _)); [reflexivity | exact Hne |].
  intros x0 pre x post Heq. rewrite token_state_of. unfold token_cut.
  rewrite Z.gtb_ltb. apply Z.ltb_ge.
  rewrite Heq, app_comm_cons, total_tokens_app in Hbudget.
  rewrite (total_tokens_cons env x post) in Hbudget.
  pose proof (total_tokens_nonneg env post). lia.
Qed.

Lemma chunk_by_tokens_one_chunk_witness :
  chunk_by_tokens env_simple (py "One two. Three four.") 500
  = Ok [py "One two. Three four."].
Proof.
  apply (chunk_by_tokens_one_chunk env_simple (py "One two. Three four.") 500
           [py "One two."; py "Three four."]).
  - reflexivity.
  - discriminate.
  - vm_compute. discriminate.
Defined.

(** A text with at most [max_paragraphs] paragraphs, none of which after
    the first is a heading, is one chunk: its paragraphs joined by blank
    lines. *)
Theorem chunk_by_paragraphs_one_chunk (text : str) (max_paragraphs : Z) :
  paragraphs_of text <> [] ->
  Z.of_nat (length (paragraphs_of text)) <= max_paragraphs ->
  forallb (fun p => negb (is_heading p)) (tl (paragraphs_of text)) = true ->
  chunk_by_paragraphs text max_paragraphs = [join nlnl (paragraphs_of text)].
Proof.
  intros Hne Hlen Hplain.
  assert (Hmax : 1 <= max_paragraphs).
  { destruct (paragraphs_of text); [congruence | cbn [length] in Hlen; lia]. }
  rewrite chunk_by_paragraphs_groups by exact Hmax.
  destruct (paragraphs_of text) as [|p0 ps] eqn:Hps; [congruence|]. cbn [truthy].
  unfold paragraph_groups.
  rewrite (greedy_grouping_single _ _ para_start para_extend (para_cut max_paragraphs)
             (p0 :: ps) _ (greedy_groups_grouping _ _ _ _ _ _));
    [reflexivity | discriminate |].
  intros x0 pre x post Heq. rewrite para_state_of.
  destruct (para_cut max_paragraphs (Z.of_nat (length (x0 :: pre))) x) eqn:Hcut;
    [exfalso | reflexivity].
  apply para_cut_true in Hcut. injection Heq as <- Hrest.
  cbn [tl] in Hplain. rewrite Hrest, forallb_app in Hplain.
  apply andb_true_iff in Hplain. destruct Hplain as [_ Hx].
  cbn [forallb] in Hx. apply andb_true_iff in Hx. destruct Hx as [Hx _].
  apply negb_true_iff in Hx.
  rewrite Hrest in Hlen. cbn [length] in Hlen, Hcut. rewrite length_app in Hlen.
  cbn [length] in Hlen.
  destruct Hcut as [Hfull | (_ & Hhead & _)]; [lia | congruence].
Qed.

Lemma chunk_by_paragraphs_one_chunk_witness :
  chunk_by_paragraphs (py "# Title\n\nfirst\n\nsecond") 5
  = [py "# Title\n\nfirst\n\nsecond"].
Proof.
  apply (chunk_by_paragraphs_one_chunk (py "# Title\n\nfirst\n\nsecond") 5).
  - discriminate.
  - vm_compute. discriminate.
  - reflexivity.
Defined.

(** With one paragraph per chunk the chunks are the paragraphs
    themselves, headings or not. *)
Theorem chunk_by_paragraphs_one_each (text : str) :
  paragraphs_of text <> [] ->
  chunk_by_paragraphs text 1 = paragraphs_of text.
Proof.
  intros Hne. rewrite chunk_by_paragraphs_groups by lia.
  destruct (paragraphs_of text) as [|p0 ps] eqn:Hps; [congruence|]. cbn [truthy].
  unfold paragraph_groups.
  rewrite (greedy_grouping_singletons _ _ para_start para_extend (para_cut 1)
             (p0 :: ps) _ (greedy_groups_grouping _ _ _ _ _ _)).
  - rewrite map_map. rewrite <- (map_id (p0 :: ps)) at 2. apply map_ext.
    intros p. reflexivity.
  - intros x0 pre x _ _. rewrite para_state_of. apply para_cut_true. left.
    cbn [length]. lia.
Qed.

Lemma chunk_by_paragraphs_one_each_witness :
  chunk_by_paragraphs (py "a\n\n# b\n\nc") 1 = [py "a"; py "# b"; py "c"].
Proof.
  apply (chunk_by_paragraphs_one_each (py "a\n\n# b\n\nc")). discriminate.
Defined.

(** ** Splitting at blank lines and joining again *)

Lemma split_nlnl_cons2 c d s :
  split_nlnl (c :: d :: s)
  = if ((c =? nl) && (d =? nl))%N then [] :: split_nlnl s
    else cons_head c (split_nlnl (d :: s)).
Proof. reflexivity. Qed.

Lemma cons_head_not_nil c X : cons_head c X <> [].
Proof. destruct X; discriminate. Qed.

Lemma split_nlnl_not_nil s : split_nlnl s <> [].
Proof.
  destruct s as [|c [|d s]]; [discriminate | discriminate |].
  rewrite split_nlnl_cons2. destruct ((c =? nl)%N && (d =? nl)%N);
    [discriminate | apply cons_head_not_nil].
Qed.

Lemma cons_head_app c (X Y : list str) :
  X <> [] -> cons_head c (X ++ Y) = cons_head c X ++ Y.
Proof. destruct X; [congruence | reflexivity]. Qed.

Lemma ends_with_nl_cons c d s : ends_with_nl (c :: d :: s) = ends_with_nl (d :: s).
Proof. reflexivity. Qed.

Lemma has_nlnl_cons2 c d s :
  has_nlnl (c :: d :: s) = ((c =? nl) && (d =? nl))%N || has_nlnl (d :: s).
Proof. reflexivity. Qed.

(** A separator that follows a piece which does not end with a line feed
    is found where it stands. *)
Lemma split_nlnl_sep : forall n (a b : str), (length a <= n)%nat ->
  ends_with_nl a = false ->
  split_nlnl (a ++ nlnl ++ b) = split_nlnl a ++ split_nlnl b.
Proof.
  induction n as [|n IH]; intros a b Hlen Hend.
  - destruct a; [reflexivity | simpl in Hlen; lia].
  - destruct a as [|c [|d a]]; [reflexivity | |].
    + cbn [ends_with_nl] in Hend. cbn [app nlnl]. rewrite split_nlnl_cons2, Hend.
      reflexivity.
    + rewrite ends_with_nl_cons in Hend. cbn [length] in Hlen.
      rewrite <- !app_comm_cons, !split_nlnl_cons2.
      destruct ((c =? nl)%N && (d =? nl)%N) eqn:E.
      * destruct a as [|e a].
        -- apply andb_true_iff in E. cbn [ends_with_nl] in Hend.
           destruct E as [_ E]. congruence.
        -- rewrite ends_with_nl_cons in Hend.
           rewrite (IH (e :: a) b ltac:(cbn [length] in *; lia) Hend).
           reflexivity.
      * rewrite app_comm_cons, (IH (d :: a) b ltac:(cbn [length] in *; lia) Hend).
        apply cons_head_app, split_nlnl_not_nil.
Qed.

Lemma paragraphs_of_sep (a b : str) :
  ends_with_nl a = false ->
  paragraphs_of (a ++ nlnl ++ b) = paragraphs_of a ++ paragraphs_of b.
Proof.
  intros Hend. unfold paragraphs_of.
  rewrite (split_nlnl_sep (length a) a b (le_n _) Hend). apply filter_app.
Qed.

Lemma paragraphs_of_nil : paragraphs_of [] = [].
Proof. reflexivity. Qed.

(** Blocks that are each followed by a blank line keep their paragraphs
    apart. *)
Lemma paragraphs_of_blocks (bs : list str) (rest : str) :
  forallb (fun b => negb (ends_with_nl b)) bs = true ->
  paragraphs_of (concat (map (fun b => b ++ nlnl) bs) ++ rest)
  = flat_map paragraphs_of bs ++ paragraphs_of rest.
Proof.
  induction bs as [|b bs IH]; intros H; [reflexivity|].
  cbn [forallb] in H. apply andb_true_iff in H. destruct H as [Hb H].
  apply negb_true_iff in Hb.
  cbn [map concat flat_map]. rewrite <- !app_assoc.
  rewrite (paragraphs_of_sep b _ Hb), (IH H), app_assoc. reflexivity.
Qed.

Lemma split_nlnl_whole (s : str) : has_nlnl s = false -> split_nlnl s = [s].
Proof.
  induction s as [|c s IH]; [reflexivity|].
  destruct s as [|d s]; [reflexivity|].
  rewrite has_nlnl_cons2, split_nlnl_cons2. intros H.
  apply orb_false_iff in H. destruct H as [-> H]. rewrite (IH H). reflexivity.
Qed.

(** The first piece is empty in front of a separator, and starts with the
    first character otherwise. *)
Lemma split_nlnl_first d s :
  exists q qs, split_nlnl (d :: s) = q :: qs
               /\ ((q = [] /\ d = nl /\ qs <> []) \/ exists q', q = d :: q').
Proof.
  destruct s as [|e s].
  - exists [d], []. split; [reflexivity | right; eauto].
  - rewrite split_nlnl_cons2. destruct ((d =? nl)%N && (e =? nl)%N) eqn:E.
    + exists [], (split_nlnl s). split; [reflexivity | left].
      apply andb_true_iff in E. destruct E as [E _]. apply N.eqb_eq in E.
      repeat split; [exact E | apply split_nlnl_not_nil].
    + destruct (split_nlnl (e :: s)) as [|q qs]; cbn [cons_head].
      * exists [d], []. split; [reflexivity | right; eauto].
      * exists (d :: q), qs. split; [reflexivity | right; eauto].
Qed.

Lemma split_nlnl_well_split : forall n (s : str), (length s <= n)%nat ->
  well_split (split_nlnl s).
Proof.
  induction n as [|n IH]; intros s Hlen.
  - destruct s; [cbn; tauto | simpl in Hlen; lia].
  - destruct s as [|c [|d s]]; [cbn; tauto | cbn; tauto |].
    cbn [length] in Hlen. rewrite split_nlnl_cons2.
    destruct ((c =? nl)%N && (d =? nl)%N) eqn:E.
    + cbn [well_split]. repeat split. apply IH. lia.
    + pose proof (IH (d :: s) ltac:(cbn [length]; lia)) as Hw.
      destruct (split_nlnl_first d s) as (q & qs & Heq & Hq).
      rewrite Heq in Hw |- *. cbn [cons_head well_split] in Hw |- *.
      destruct Hw as (Hq1 & Hq2 & Hw).
      destruct Hq as [(-> & -> & Hqs) | (q' & ->)].
      * rewrite andb_false_iff in E. repeat split; [| exact Hw].
        intros _. cbn [ends_with_nl]. destruct E as [E | E]; [exact E|].
        discriminate.
      * rewrite has_nlnl_cons2, E, Hq1. repeat split; [| exact Hw].
        intros Hqs. rewrite ends_with_nl_cons. apply Hq2, Hqs.
Qed.

Lemma well_split_filter (f : str -> bool) (ps : list str) :
  well_split ps -> well_split (filter f ps).
Proof.
  induction ps as [|p ps IH]; [tauto|]. intros (Hp1 & Hp2 & Hw).
  cbn [filter]. destruct (f p); [|apply IH, Hw].
  cbn [well_split]. repeat split; [exact Hp1 | | apply IH, Hw].
  intros Hne. apply Hp2. intros ->. apply Hne. reflexivity.
Qed.

Lemma split_nlnl_join (ps : list str) :
  well_split ps -> ps <> [] -> split_nlnl (join nlnl ps) = ps.
Proof.
  induction ps as [|p ps IH]; [congruence|]. intros (Hp1 & Hp2 & Hw) _.
  destruct ps as [|p2 ps]; [apply split_nlnl_whole, Hp1|].
  change (join nlnl (p :: p2 :: ps)) with (p ++ nlnl ++ join nlnl (p2 :: ps)).
  rewrite (split_nlnl_sep (length p) p _ (le_n _)) by (apply Hp2; discriminate).
  rewrite (split_nlnl_whole p Hp1), (IH Hw) by discriminate. reflexivity.
Qed.

Lemma filter_idem {A : Type} (f : A -> bool) (l : list A) :
  filter f (filter f l) = filter f l.
Proof.
  induction l as [|x l IH]; [reflexivity|]. cbn [filter].
  destruct (f x) eqn:E; [cbn [filter]; rewrite E, IH; reflexivity | exact IH].
Qed.

(** The paragraphs of a text are again its paragraphs once they are joined
    by blank lines. *)
Lemma paragraphs_of_join_paragraphs (text : str) :
  paragraphs_of (join nlnl (paragraphs_of text)) = paragraphs_of text.
Proof.
  destruct (paragraphs_of text) as [|p ps] eqn:Hps; [reflexivity|].
  rewrite <- Hps. unfold paragraphs_of at 1. rewrite split_nlnl_join.
  - unfold paragraphs_of. apply filter_idem.
  - unfold paragraphs_of. apply well_split_filter.
    apply (split_nlnl_well_split (length text)), le_n.
  - rewrite Hps. discriminate.
Qed.

(** Chunking the joined chunks again, with any number of paragraphs per
    chunk, gives what chunking the text itself gives: the processed
    content of the loop is a fixed point of the paragraph chunker. *)
Theorem chunk_by_paragraphs_rechunk (text : str) (max_paragraphs again : Z) :
  1 <= max_paragraphs ->
  chunk_by_paragraphs (join nlnl (chunk_by_paragraphs text max_paragraphs)) again
  = chunk_by_paragraphs text again.
Proof.
  intros Hmax. rewrite chunk_by_paragraphs_joined by exact Hmax.
  unfold chunk_by_paragraphs. rewrite paragraphs_of_join_paragraphs. reflexivity.
Qed.

Lemma chunk_by_paragraphs_rechunk_witness :
  chunk_by_paragraphs
    (join nlnl (chunk_by_paragraphs (py "a\n\n\nb\n\n \n\nc\n") 2)) 1
  = chunk_by_paragraphs (py "a\n\n\nb\n\n \n\nc\n") 1.
Proof.
  apply (chunk_by_paragraphs_rechunk (py "a\n\n\nb\n\n \n\nc\n") 2 1). lia.
Defined.

(** ** What the extractors hand to the paragraph chunker *)

Lemma fold_left_append {A : Type} (f : A -> str) (l : list A) : forall init,
  fold_left (fun text x => text ++ f x) l init = init ++ concat (map f l).
Proof.
  induction l as [|x l IH]; intros init; cbn [fold_left map concat].
  - rewrite app_nil_r. reflexivity.
  - rewrite IH, app_assoc. reflexivity.
Qed.

Lemma extract_text_from_pdf_blocks file pages :
  pdf_pages file = Ok pages ->
  extract_text_from_pdf file
  = Ok (concat (map (fun b => b ++ nlnl) (map page_text pages))).
Proof.
  intros H. unfold extract_text_from_pdf. rewrite H. cbn [bind].
  rewrite (fold_left_append (fun page => page_text page ++ nlnl)), map_map.
  reflexivity.
Qed.

(** When no page text ends with a line feed, the paragraphs of the text
    extracted from a PDF are the paragraphs of its pages, page after page:
    no paragraph runs over a page break, and a page without text adds
    none. *)
Theorem extract_text_from_pdf_paragraphs (file : File) (pages : list (option str)) :
  pdf_pages file = Ok pages ->
  forallb (fun page => negb (ends_with_nl (page_text page))) pages = true ->
  exists text, extract_text_from_pdf file = Ok text
    /\ paragraphs_of text = flat_map (fun page => paragraphs_of (page_text page)) pages.
Proof.
  intros Hpages Hend. eexists. split; [apply extract_text_from_pdf_blocks, Hpages|].
  rewrite <- (app_nil_r (concat _)), paragraphs_of_blocks.
  - rewrite paragraphs_of_nil, app_nil_r.
    rewrite !flat_map_concat_map, map_map. reflexivity.
  - rewrite forallb_forall in Hend |- *. intros b Hb. apply in_map_iff in Hb.
    destruct Hb as (page & <- & Hpage). apply Hend, Hpage.
Qed.

Lemma extract_text_from_pdf_paragraphs_witness :
  exists text,
    extract_text_from_pdf
      {| pdf_pages := Ok [Some (py "a\n\nb"); None; Some (py "c")];
         docx_paragraphs := Ok []; txt_decoded := Ok []; csv_markdown := Ok [];
         excel_markdown := Ok [];
         pptx_presentation := Raise (OtherError []);
         html_soup := Raise (OtherError []) |} = Ok text
    /\ paragraphs_of text = [py "a"; py "b"; py "c"].
Proof.
  apply (extract_text_from_pdf_paragraphs _ [Some (py "a\n\nb"); None; Some (py "c")]);
    reflexivity.
Defined.

Lemma has_nlnl_line (p rest : str) :
  existsb (N.eqb nl) p = false -> has_nlnl (p ++ nl :: rest) = has_nlnl (nl :: rest).
Proof.
  induction p as [|c p IH]; [reflexivity|]. cbn [existsb]. intros H.
  apply orb_false_iff in H. destruct H as [Hc H].
  rewrite <- app_comm_cons. destruct (p ++ nl :: rest) as [|d s] eqn:E.
  - destruct p; discriminate.
  - rewrite has_nlnl_cons2, (IH H), (N.eqb_sym c nl), Hc. reflexivity.
Qed.

Lemma truthy_non_blank_strip (s : str) :
  truthy (non_blank s) = true -> truthy (strip s) = true.
Proof.
  intros H. destruct (strip s) as [|c r] eqn:E; [|reflexivity].
  rewrite (strip_nil_blank s E) in H. discriminate.
Qed.

(** The lines of a Word document, each followed by one line feed, hold no
    blank line and start, when there are any, with a character of the
    first line. *)
Lemma docx_lines_no_blank_line (paras : list str) :
  forallb (fun p => truthy (non_blank p) && negb (existsb (N.eqb nl) p)) paras = true ->
  has_nlnl (concat (map (fun p => p ++ [nl]) paras)) = false
  /\ (paras = []
      \/ exists d r, concat (map (fun p => p ++ [nl]) paras) = d :: r
                     /\ (d =? nl)%N = false).
Proof.
  induction paras as [|p paras IH]; [intros _; split; [reflexivity | left; reflexivity]|].
  cbn [forallb]. intros H. apply andb_true_iff in H. destruct H as [Hp H].
  apply andb_true_iff in Hp. destruct Hp as [Hblank Hnl]. apply negb_true_iff in Hnl.
  destruct (IH H) as [Hrest Hfirst]. cbn [map concat]. rewrite <- app_assoc.
  cbn [app]. split.
  - rewrite (has_nlnl_line p _ Hnl).
    destruct Hfirst as [-> | (d & r & Heq & Hd)]; [reflexivity|].
    rewrite Heq in Hrest |- *.
    rewrite has_nlnl_cons2, Hd, andb_false_r. cbn [orb]. exact Hrest.
  - right. destruct p as [|c p]; [discriminate|]. cbn [existsb] in Hnl.
    apply orb_false_iff in Hnl. destruct Hnl as [Hc _].
    exists c, (p ++ nl :: concat (map (fun p0 => p0 ++ [nl]) paras)).
    split; [reflexivity|]. rewrite N.eqb_sym. exact Hc.
Qed.

Lemma chunk_by_paragraphs_single (text p : str) (max_paragraphs : Z) :
  paragraphs_of text = [p] -> 1 <= max_paragraphs ->
  chunk_by_paragraphs text max_paragraphs = [p].
Proof.
  intros Hp Hmax. rewrite chunk_by_paragraphs_groups by exact Hmax.
  rewrite Hp. reflexivity.
Qed.

(** A Word document that has no blank paragraph and no line feed inside a
    paragraph is extracted to a text without a blank line, so the
    paragraph chunker returns the whole text as one chunk, whatever the
    number of paragraphs per chunk. *)
Theorem extract_text_from_docx_one_chunk (file : File) (paras : list str)
  (max_paragraphs : Z) :
  docx_paragraphs file = Ok paras ->
  paras <> [] ->
  forallb (fun p => truthy (non_blank p) && negb (existsb (N.eqb nl) p)) paras = true ->
  1 <= max_paragraphs ->
  exists text, extract_text_from_docx file = Ok text
               /\ chunk_by_paragraphs text max_paragraphs = [text].
Proof.
  intros Hdoc Hne Hlines Hmax.
  exists (concat (map (fun p => p ++ [nl]) paras)). split.
  - unfold extract_text_from_docx. rewrite Hdoc. cbn [bind].
    rewrite (fold_left_append (fun para => para ++ [nl])). reflexivity.
  - apply chunk_by_paragraphs_single; [|exact Hmax].
    destruct (docx_lines_no_blank_line paras Hlines) as [Hno _].
    unfold paragraphs_of. rewrite (split_nlnl_whole _ Hno). cbn [filter].
    rewrite truthy_non_blank_strip; [reflexivity|].
    destruct paras as [|p paras]; [congruence|]. cbn [forallb] in Hlines.
    apply andb_true_iff in Hlines. destruct Hlines as [Hp _].
    apply andb_true_iff in Hp. destruct Hp as [Hp _].
    cbn [map concat]. rewrite !non_blank_app.
    destruct (non_blank p); [discriminate | reflexivity].
Qed.

Lemma extract_text_from_docx_one_chunk_witness :
  exists text,
    extract_text_from_docx
      {| pdf_pages := Ok [];
         docx_paragraphs := Ok [py "Title"; py "First paragraph."; py "Second."];
         txt_decoded := Ok []; csv_markdown := Ok []; excel_markdown := Ok [];
         pptx_presentation := Raise (OtherError []);
         html_soup := Raise (OtherError []) |} = Ok text
    /\ chunk_by_paragraphs text 1 = [text].
Proof.
  apply (extract_text_from_docx_one_chunk _
           [py "Title"; py "First paragraph."; py "Second."] 1);
    [reflexivity | discriminate | reflexivity | lia].
Defined.

(** ** process_file *)

(** [process_file] never raises: an error of a reader comes back as the
    content of the file. *)
Theorem process_file_returns (env : Env) (has_pptx has_bs4 : bool) (file : File)
  (file_extension : str) :
  exists content, process_file env has_pptx has_bs4 file file_extension = Ok content.
Proof.
  unfold process_file.
  match goal with |- exists c, try_except ?r _ = _ => destruct r as [t | e] end;
    cbn [try_except]; eauto.
Qed.

Lemma process_file_total env has_pptx has_bs4 file file_extension :
  match process_file env has_pptx has_bs4 file file_extension with
  | Ok _ => True
  | Raise _ => False
  end.
Proof.
  unfold process_file.
  match goal with |- match try_except ?r _ with _ => _ end => destruct r as [t | e] end;
    exact I.
Qed.

(** An error of the PDF reader becomes the content
    ['Error processing file: ...'] with the error's message. *)
Theorem process_file_reader_error (env : Env) (has_pptx has_bs4 : bool)
  (file : File) (file_extension : str) (e : exn) :
  lower env file_extension = py ".pdf" ->
  pdf_pages file = Raise e ->
  process_file env has_pptx has_bs4 file file_extension
  = Ok (py "Error processing file: " ++ exn_msg e).
Proof.
  intros Hext Hraise. unfold process_file. rewrite Hext.
  change (mem (py ".pdf") [py ".pdf"]) with true. cbv iota.
  unfold extract_text_from_pdf. rewrite Hraise. reflexivity.
Qed.

Lemma process_file_reader_error_witness :
  process_file env_simple true true
    {| pdf_pages := Raise (OtherError (py "No /Root object"));
       docx_paragraphs := Ok []; txt_decoded := Ok []; csv_markdown := Ok [];
       excel_markdown := Ok [];
       pptx_presentation := Raise (OtherError []);
       html_soup := Raise (OtherError []) |} (py ".PDF")
  = Ok (py "Error processing file: No /Root object").
Proof.
  apply (process_file_reader_error env_simple true true _ (py ".PDF")
           (OtherError (py "No /Root object"))); reflexivity.
Defined.

(** For an extension that is in none of the lists, the content is the
    message alone, with the extension as it was given; the file is not
    read, although the message says it will be treated as plain text. *)
Theorem process_file_unsupported (env : Env) (has_pptx has_bs4 : bool)
  (file : File) (file_extension : str) :
  mem (lower env file_extension)
    [py ".pdf"; py ".docx"; py ".doc"; py ".txt"; py ".md"; py ".text";
     py ".markdown"; py ".csv"; py ".xlsx"; py ".xls"; py ".pptx"; py ".ppt";
     py ".html"; py ".htm"; py ".json"; py ".xml"; py ".yaml"; py ".yml"] = false ->
  process_file env has_pptx has_bs4 file file_extension
  = Ok (py "Unsupported file format: " ++ file_extension
        ++ py ". File will be treated as plain text.").
Proof.
  intros H. unfold process_file. cbv zeta. unfold mem in *. cbn [existsb] in H |- *.
  repeat (apply orb_false_iff in H; destruct H as [E H]; rewrite E; clear E).
  reflexivity.
Qed.

Lemma process_file_unsupported_witness :
  process_file env_simple true true
    {| pdf_pages := Ok []; docx_paragraphs := Ok [];
       txt_decoded := Ok (py "plain text"); csv_markdown := Ok [];
       excel_markdown := Ok [];
       pptx_presentation := Raise (OtherError []);
       html_soup := Raise (OtherError []) |} (py ".RTF")
  = Ok (py "Unsupported file format: .RTF. File will be treated as plain text.").
Proof.
  apply (process_file_unsupported env_simple true true _ (py ".RTF")). reflexivity.
Defined.

(** ** The text of a presentation *)

Lemma str_of_uint_no_nl (d : Decimal.uint) :
  existsb (N.eqb nl)
    (map N_of_ascii (list_ascii_of_string (NilEmpty.string_of_uint d))) = false.
Proof.
  induction d as [|d IH|d IH|d IH|d IH|d IH|d IH|d IH|d IH|d IH|d IH];
    [reflexivity | ..];
    cbn [NilEmpty.string_of_uint list_ascii_of_string map existsb];
    rewrite IH; reflexivity.
Qed.

Lemma str_of_nat_no_nl (n : nat) : existsb (N.eqb nl) (str_of_nat n) = false.
Proof. apply str_of_uint_no_nl. Qed.

Lemma no_nl_has_nlnl (s : str) : existsb (N.eqb nl) s = false -> has_nlnl s = false.
Proof.
  intros H. rewrite <- (app_nil_r s) in H.
  induction s as [|c s IH]; [reflexivity|]. destruct s as [|d s]; [reflexivity|].
  rewrite has_nlnl_cons2. cbn [app existsb] in H, IH |- *.
  apply orb_false_iff in H. destruct H as [Hc H].
  rewrite (N.eqb_sym c nl), Hc. apply IH, H.
Qed.

Lemma no_nl_ends_with_nl (s : str) :
  existsb (N.eqb nl) s = false -> ends_with_nl s = false.
Proof.
  induction s as [|c s IH]; [reflexivity|]. cbn [existsb]. intros H.
  apply orb_false_iff in H. destruct H as [Hc H].
  destruct s as [|d s]; [cbn [ends_with_nl]; rewrite N.eqb_sym; exact Hc|].
  rewrite ends_with_nl_cons. apply IH, H.
Qed.

(** The heading of a slide, with or without the line feed that ends the
    slide before it, is one paragraph. *)
Lemma slide_heading_paragraph (i : nat) (n : nat) :
  let heading := (if (i =? 0)%nat then [] else [nl]) ++ py "## Slide " ++ str_of_nat n in
  ends_with_nl heading = false /\ paragraphs_of heading = [heading].
Proof.
  cbv zeta.
  assert (Hno : existsb (N.eqb nl) (py "## Slide " ++ str_of_nat n) = false).
  { rewrite existsb_app, str_of_nat_no_nl. reflexivity. }
  assert (Hbody : exists c r, py "## Slide " ++ str_of_nat n = c :: r
                              /\ (c =? nl)%N = false /\ isspace c = false).
  { eexists _, _. split; [reflexivity | split; reflexivity]. }
  destruct Hbody as (c & r & Heq & Hc & Hsp).
  assert (H : ends_with_nl ((if (i =? 0)%nat then [] else [nl])
                            ++ py "## Slide " ++ str_of_nat n) = false
              /\ has_nlnl ((if (i =? 0)%nat then [] else [nl])
                           ++ py "## Slide " ++ str_of_nat n) = false
              /\ truthy (non_blank ((if (i =? 0)%nat then [] else [nl])
                                    ++ py "## Slide " ++ str_of_nat n)) = true).
  { pose proof (no_nl_ends_with_nl _ Hno) as Hend.
    pose proof (no_nl_has_nlnl _ Hno) as Hnn.
    destruct (i =? 0)%nat; cbn [app].
    - split; [exact Hend | split; [exact Hnn|]]. rewrite Heq. unfold non_blank.
      cbn [filter]. rewrite Hsp. reflexivity.
    - rewrite Heq in Hend, Hnn |- *. rewrite ends_with_nl_cons, has_nlnl_cons2, Hc.
      split; [exact Hend | split; [rewrite andb_false_r; exact Hnn|]].
      unfold non_blank. cbn [filter]. rewrite Hsp.
      destruct (negb (isspace nl)); reflexivity. }
  destruct H as (Hend & Hnn & Htr). split; [exact Hend|].
  unfold paragraphs_of. rewrite (split_nlnl_whole _ Hnn). cbn [filter].
  rewrite (truthy_non_blank_strip _ Htr). reflexivity.
Qed.

Lemma shapes_fold (shapes : list (option str)) : forall init,
  fold_left
    (fun text shape =>
       match shape with
       | Some t => if truthy t then text ++ t ++ nlnl else text
       | None => text
       end) shapes init
  = init ++ concat (map (fun b => b ++ nlnl) (shape_texts shapes)).
Proof.
  induction shapes as [|shape shapes IH]; intros init; cbn [fold_left].
  - cbn. rewrite app_nil_r. reflexivity.
  - rewrite IH. unfold shape_texts. cbn [flat_map]. destruct shape as [t|].
    + destruct (truthy t); cbn [app map concat]; [|reflexivity].
      rewrite <- !app_assoc. reflexivity.
    + reflexivity.
Qed.

Lemma pptx_slides_paragraphs (slides : list (list (option str))) : forall a,
  forallb (fun shapes => forallb (fun t => negb (ends_with_nl t)) (shape_texts shapes))
    slides = true ->
  paragraphs_of
    ((if (a =? 0)%nat then [] else [nl])
     ++ concat (map (fun islide => slide_text (fst islide) (snd islide))
                  (combine (seq a (length slides)) slides)))
  = flat_map (fun islide => slide_paragraphs (fst islide) (snd islide))
      (combine (seq a (length slides)) slides).
Proof.
  induction slides as [|shapes slides IH]; intros a Hok.
  - cbn [length seq combine map concat flat_map]. rewrite app_nil_r.
    destruct (a =? 0)%nat; reflexivity.
  - cbn [forallb] in Hok. apply andb_true_iff in Hok. destruct Hok as [Hshapes Hok].
    cbn [length seq combine map concat flat_map fst snd].
    specialize (IH (S a) Hok). cbn [Nat.eqb] in IH.
    destruct (slide_heading_paragraph a (a + 1)) as [Hend Hpar]. cbv zeta in Hend, Hpar.
    unfold slide_paragraphs at 1. rewrite <- app_comm_cons, <- IH.
    set (heading := (if (a =? 0)%nat then [] else [nl])
                    ++ py "## Slide " ++ str_of_nat (a + 1)) in *.
    set (rest := concat (map (fun islide => slide_text (fst islide) (snd islide))
                           (combine (seq (S a) (length slides)) slides))).
    transitivity (paragraphs_of
                    (heading ++ nlnl
                     ++ concat (map (fun b => b ++ nlnl) (shape_texts shapes))
                     ++ [nl] ++ rest)).
    + f_equal. unfold heading, slide_text. rewrite (shapes_fold shapes []).
      cbn [app]. rewrite <- !app_assoc. reflexivity.
    + rewrite (paragraphs_of_sep _ _ Hend), Hpar.
      rewrite (paragraphs_of_blocks (shape_texts shapes) _ Hshapes). reflexivity.
Qed.

(** When no shape text ends with a line feed, the paragraphs of the text
    extracted from a presentation are the title line, when the
    presentation has layouts, and for every slide its heading and the
    paragraphs of its shapes; the heading of every slide but the first
    starts with the line feed that ends the slide before it. *)
Theorem extract_text_from_pptx_paragraphs (file : File) (prs : Presentation) :
  pptx_presentation file = Ok prs ->
  forallb (fun shapes => forallb (fun t => negb (ends_with_nl t)) (shape_texts shapes))
    (slides prs) = true ->
  paragraphs_of (extract_text_from_pptx true file)
  = (if slide_layouts prs then [py "# PowerPoint Presentation"] else [])
    ++ flat_map (fun islide => slide_paragraphs (fst islide) (snd islide))
         (combine (seq 0 (length (slides prs))) (slides prs)).
Proof.
  intros Hprs Hok. unfold extract_text_from_pptx. rewrite Hprs. cbn [negb bind].
  rewrite (fold_left_append (fun islide => slide_text (fst islide) (snd islide))).
  rewrite <- (pptx_slides_paragraphs (slides prs) 0 Hok). cbn [Nat.eqb app].
  destruct (slide_layouts prs); [|reflexivity].
  change (py "# PowerPoint Presentation\n\n")
    with (py "# PowerPoint Presentation" ++ nlnl).
  rewrite <- app_assoc, paragraphs_of_sep by reflexivity. reflexivity.
Qed.

Lemma extract_text_from_pptx_paragraphs_witness :
  paragraphs_of
    (extract_text_from_pptx true
       {| pdf_pages := Ok []; docx_paragraphs := Ok []; txt_decoded := Ok [];
          csv_markdown := Ok []; excel_markdown := Ok [];
          pptx_presentation :=
            Ok {| slide_layouts := true;
                  slides := [[Some (py "Welcome"); None];
                             [Some []; Some (py "Agenda")]] |};
          html_soup := Raise (OtherError []) |})
  = [py "# PowerPoint Presentation"; py "## Slide 1"; py "Welcome";
     py "\n## Slide 2"; py "Agenda"].
Proof.
  apply (extract_text_from_pptx_paragraphs _
           {| slide_layouts := true;
              slides := [[Some (py "Welcome"); None]; [Some []; Some (py "Agenda")]] |});
    reflexivity.
Defined.


(** ** The text of a page *)

Lemma ends_with_nl_app (a b : str) :
  b <> [] -> ends_with_nl (a ++ b) = ends_with_nl b.
Proof.
  intros Hb. induction a as [|c a IH]; [reflexivity|].
  rewrite <- app_comm_cons. destruct (a ++ b) as [|d s] eqn:E.
  - destruct a; [cbn in E; congruence | discriminate].
  - rewrite ends_with_nl_cons. exact IH.
Qed.

(** A stripped string does not end with a line feed. *)
Lemma ends_with_nl_strip (t : str) : ends_with_nl (strip t) = false.
Proof.
  unfold strip. destruct (dropwhile isspace (rev (dropwhile isspace t))) as [|c r] eqn:E;
    [reflexivity|].
  apply dropwhile_head in E. cbn [rev]. rewrite ends_with_nl_app by discriminate.
  cbn [ends_with_nl]. destruct (c =? nl)%N eqn:Hc; [|reflexivity].
  apply N.eqb_eq in Hc. subst c. discriminate.
Qed.

Lemma ends_with_nl_after_space (a t : str) :
  ends_with_nl t = false -> ends_with_nl (a ++ [space] ++ t) = false.
Proof.
  intros Ht. rewrite ends_with_nl_app by discriminate.
  destruct t as [|c t]; [reflexivity|]. cbn [app]. rewrite ends_with_nl_cons. exact Ht.
Qed.

Lemma element_block_text (elem : html_tag * str) :
  is_list_item elem = false -> html_element_text elem = element_block elem ++ nlnl.
Proof.
  unfold is_list_item, html_element_text, element_block.
  destruct (fst elem); [intros _ | intros _ | discriminate].
  - rewrite <- !app_assoc. reflexivity.
  - reflexivity.
Qed.

Lemma element_block_end (elem : html_tag * str) :
  is_list_item elem = false -> ends_with_nl (element_block elem) = false.
Proof.
  unfold is_list_item, element_block.
  destruct (fst elem); [intros _ | intros _ | discriminate].
  - apply ends_with_nl_after_space, ends_with_nl_strip.
  - apply ends_with_nl_strip.
Qed.

(** In a page without list items whose title, if it has one, does not end
    with a line feed, every element is followed by a blank line, so the
    paragraphs of the extracted text are those of the title line and of
    every heading and paragraph element, one after the other. *)
Theorem extract_text_from_html_paragraphs (file : File) (soup : Soup) :
  html_soup file = Ok soup ->
  forallb (fun b => negb (ends_with_nl b)) (title_block (soup_title soup)) = true ->
  forallb (fun elem => negb (is_list_item elem)) (soup_elements soup) = true ->
  paragraphs_of (extract_text_from_html true file)
  = flat_map paragraphs_of
      (title_block (soup_title soup) ++ map element_block (soup_elements soup)).
Proof.
  intros Hsoup Htitle Hitems. unfold extract_text_from_html. rewrite Hsoup.
  cbn [negb bind]. rewrite (fold_left_append html_element_text).
  rewrite <- (app_nil_r (flat_map _ _)), <- paragraphs_of_nil.
  rewrite <- paragraphs_of_blocks.
  - f_equal. rewrite app_nil_r, map_app, concat_app. f_equal.
    + destruct (soup_title soup) as [t|]; [|reflexivity].
      cbn [title_block map concat]. rewrite app_nil_r, <- app_assoc. reflexivity.
    + f_equal. rewrite map_map. apply map_ext_in. intros elem Hin.
      apply element_block_text. rewrite forallb_forall in Hitems.
      apply negb_true_iff, Hitems, Hin.
  - rewrite forallb_app, Htitle. cbn [andb]. apply forallb_forall.
    intros b Hb. apply in_map_iff in Hb. destruct Hb as (elem & <- & Hin).
    rewrite element_block_end; [reflexivity|].
    rewrite forallb_forall in Hitems. apply negb_true_iff, Hitems, Hin.
Qed.

Lemma extract_text_from_html_paragraphs_witness :
  paragraphs_of
    (extract_text_from_html true
       {| pdf_pages := Ok []; docx_paragraphs := Ok []; txt_decoded := Ok [];
          csv_markdown := Ok []; excel_markdown := Ok [];
          pptx_presentation := Raise (OtherError []);
          html_soup :=
            Ok {| soup_title := Some (py "Home");
                  soup_elements := [(Heading 2, py " News
"); (Paragraph, py "a

b ")] |} |})
  = [py "# Home"; py "## News"; py "a"; py "b"].
Proof.
  apply (extract_text_from_html_paragraphs _
           {| soup_title := Some (py "Home");
              soup_elements := [(Heading 2, py " News
"); (Paragraph, py "a

b ")] |});
    reflexivity.
Defined.

Lemma span_hashes (level : nat) (rest : str) :
  span is_hash (repeat hash level ++ space :: rest) = (repeat hash level, space :: rest).
Proof.
  induction level as [|level IH]; [reflexivity|].
  cbn [repeat app span]. change (is_hash hash) with true. cbv iota.
  rewrite IH. reflexivity.
Qed.

(** The line of an [h1] to [h6] element is a heading for the paragraph
    chunker, whatever the text of the element. *)
Theorem html_heading_is_heading (level : nat) (t : str) :
  (1 <= level <= 6)%nat ->
  is_heading (element_block (Heading level, t)) = true.
Proof.
  intros Hlevel. unfold element_block, is_heading. cbn [fst snd app].
  rewrite span_hashes, repeat_length.
  assert (H1 : (1 <=? level)%nat = true) by (apply Nat.leb_le; lia).
  assert (H6 : (level <=? 6)%nat = true) by (apply Nat.leb_le; lia).
  rewrite H1, H6. reflexivity.
Qed.

Lemma html_heading_is_heading_witness :
  is_heading (element_block (Heading 3, py "  Install 
")) = true.
Proof.
  apply (html_heading_is_heading 3 (py "  Install 
")). lia.
Defined.

(** ** The loop over the uploaded files *)

Lemma non_blank_concat (l : list str) :
  non_blank (concat l) = concat (map non_blank l).
Proof.
  induction l as [|x l IH]; [reflexivity|].
  cbn [concat map]. rewrite non_blank_app, IH. reflexivity.
Qed.

Lemma process_files_paragraph_loop env sess opts float_str has_pptx has_bs4 :
  chunking_enabled opts = true ->
  chunking_method opts = SmartParagraph ->
  add_metadata_enabled opts = false ->
  1 <= paragraphs_per_chunk opts ->
  forall (uploaded_files : list Upload) (acc : list str),
  exists contents,
    Forall2 (fun file content =>
               process_file env has_pptx has_bs4 (upload_file file)
                 (upload_extension file) = Ok content) uploaded_files contents
    /\ for_each
         (fun processed_contents file =>
            content <- process_file env has_pptx has_bs4 (upload_file file)
                         (upload_extension file);;
            processed <- processed_content env sess opts float_str
                           (upload_name file) content;;
            Ok (processed_contents ++ [processed]))
         uploaded_files acc
       = Ok (acc ++ map (fun content => join nlnl (paragraphs_of content)) contents).
Proof.
  intros Hon Hm Hmeta Hmax uploaded_files.
  induction uploaded_files as [|file files IH]; intros acc.
  - exists []. split; [constructor|]. cbn [for_each map]. rewrite app_nil_r. reflexivity.
  - pose proof (process_file_total env has_pptx has_bs4 (upload_file file)
                  (upload_extension file)) as Htotal.
    destruct (process_file env has_pptx has_bs4 (upload_file file)
                (upload_extension file)) as [content|e] eqn:Hfile; [|destruct Htotal].
    destruct (IH (acc ++ [join nlnl (paragraphs_of content)])) as (contents & Hall & Hloop).
    exists (content :: contents). split; [constructor; assumption|].
    cbn [for_each]. rewrite Hfile. cbn [bind].
    unfold processed_content at 1, chunks_of. rewrite Hon, Hm, Hmeta. cbn [bind fst snd].
    rewrite chunk_by_paragraphs_joined by exact Hmax.
    rewrite Hloop, <- app_assoc. reflexivity.
Qed.

(** With Smart Paragraph chunking and no metadata the loop over the
    uploaded files never raises, and the merged content holds the
    characters other than white space of the extracted contents, all of
    them and in order: no file and no paragraph is lost or repeated. *)
Theorem process_files_smart_paragraph (env : Env) (sess : Session) (opts : Options)
  (float_str : Q -> str) (has_pptx has_bs4 : bool) (uploaded_files : list Upload) :
  chunking_enabled opts = true ->
  chunking_method opts = SmartParagraph ->
  add_metadata_enabled opts = false ->
  1 <= paragraphs_per_chunk opts ->
  exists contents processed merged,
    Forall2 (fun file content =>
               process_file env has_pptx has_bs4 (upload_file file)
                 (upload_extension file) = Ok content) uploaded_files contents
    /\ process_files env sess opts float_str has_pptx has_bs4 uploaded_files
       = Ok (processed, merged)
    /\ non_blank merged = non_blank (concat contents).
Proof.
  intros Hon Hm Hmeta Hmax.
  destruct (process_files_paragraph_loop env sess opts float_str has_pptx has_bs4
              Hon Hm Hmeta Hmax uploaded_files []) as (contents & Hall & Hloop).
  exists contents. eexists. eexists. split; [exact Hall|]. split.
  - unfold process_files. rewrite Hloop. reflexivity.
  - unfold merged_content. rewrite Hmeta. cbn [app].
    rewrite (non_blank_join nlnl) by reflexivity.
    rewrite map_map, non_blank_concat. f_equal. apply map_ext. intros content.
    rewrite (non_blank_join nlnl) by reflexivity. apply non_blank_paragraphs.
Qed.

Lemma process_files_smart_paragraph_witness :
  exists contents processed merged,
    Forall2 (fun file content =>
               process_file env_broken true true (upload_file file)
                 (upload_extension file) = Ok content)
      [{| upload_name := py "a.txt"; upload_extension := py ".txt";
          upload_file :=
            {| pdf_pages := Ok []; docx_paragraphs := Ok [];
               txt_decoded := Ok (py "one\n\n\ntwo\n"); csv_markdown := Ok [];
               excel_markdown := Ok [];
               pptx_presentation := Raise (OtherError []);
               html_soup := Raise (OtherError []) |} |};
       {| upload_name := py "b.pdf"; upload_extension := py ".pdf";
          upload_file :=
            {| pdf_pages := Raise (OtherError (py "damaged")); docx_paragraphs := Ok [];
               txt_decoded := Ok []; csv_markdown := Ok [];
               excel_markdown := Ok [];
               pptx_presentation := Raise (OtherError []);
               html_soup := Raise (OtherError []) |} |}]
      contents
    /\ process_files env_broken
         {| session_extract_keywords := None; session_max_keywords := None |}
         {| chunking_enabled := true; chunking_method := SmartParagraph;
            paragraphs_per_chunk := 1; tokens_per_chunk := 500;
            similarity_threshold := None; add_metadata_enabled := false |}
         (fun _ => []) true true
         [{| upload_name := py "a.txt"; upload_extension := py ".txt";
             upload_file :=
               {| pdf_pages := Ok []; docx_paragraphs := Ok [];
                  txt_decoded := Ok (py "one\n\n\ntwo\n"); csv_markdown := Ok [];
                  excel_markdown := Ok [];
                  pptx_presentation := Raise (OtherError []);
                  html_soup := Raise (OtherError []) |} |};
          {| upload_name := py "b.pdf"; upload_extension := py ".pdf";
             upload_file :=
               {| pdf_pages := Raise (OtherError (py "damaged")); docx_paragraphs := Ok [];
                  txt_decoded := Ok []; csv_markdown := Ok [];
                  excel_markdown := Ok [];
                  pptx_presentation := Raise (OtherError []);
                  html_soup := Raise (OtherError []) |} |}]
       = Ok (processed, merged)
    /\ non_blank merged = non_blank (concat contents).
Proof.
  apply (process_files_smart_paragraph env_broken); [reflexivity .. | cbn; lia].
Defined.

(** The loop has no handler: with Token-based chunking, an error of the
    sentence splitter that is not a [LookupError] on the first file ends
    the run with that error, and no content is produced for any file. *)
Theorem process_files_raises (env : Env) (sess : Session) (opts : Options)
  (float_str : Q -> str) (has_pptx has_bs4 : bool) (file : Upload)
  (files : list Upload) (content msg : str) :
  chunking_enabled opts = true ->
  chunking_method opts = TokenBased ->
  process_file env has_pptx has_bs4 (upload_file file) (upload_extension file)
  = Ok content ->
  sent_tokenize env content = Raise (OtherError msg) ->
  process_files env sess opts float_str has_pptx has_bs4 (file :: files)
  = Raise (OtherError msg).
Proof.
  intros Hon Hm Hfile Hsent. unfold process_files. cbn [for_each].
  rewrite Hfile. cbn [bind]. unfold processed_content, chunks_of.
  rewrite Hon, Hm. unfold chunk_by_tokens, sentences_of. rewrite Hsent. reflexivity.
Qed.

Lemma process_files_raises_witness :
  process_files env_broken
    {| session_extract_keywords := None; session_max_keywords := None |}
    {| chunking_enabled := true; chunking_method := TokenBased;
       paragraphs_per_chunk := 5; tokens_per_chunk := 500;
       similarity_threshold := None; add_metadata_enabled := false |}
    (fun _ => []) true true
    [{| upload_name := py "a.txt"; upload_extension := py ".txt";
        upload_file :=
          {| pdf_pages := Ok []; docx_paragraphs := Ok [];
             txt_decoded := Ok (py "One. Two."); csv_markdown := Ok [];
             excel_markdown := Ok [];
             pptx_presentation := Raise (OtherError []);
             html_soup := Raise (OtherError []) |} |}]
  = Raise (OtherError (py "broken")).
Proof.
  apply (process_files_raises env_broken _ _ _ true true _ [] (py "One. Two.")
           (py "broken")); reflexivity.
Defined.
